(** * PyWebIO, Flask backend: session registry and polling protocol

    Shallow embedding of [pywebio/platform/flask.py]: the two module-level
    dictionaries ([_webio_sessions], [_webio_expire]), the last-sweep
    timestamp, the expiry sweep [_remove_expired_sessions], the paired
    removal [_remove_webio_session] and the request handler [_webio_view].

    Modelling choices.
    - [time.time()] returns seconds; timestamps are taken in [Z].  Every call
      of [time.time()] is one reading of the clock of the environment
      ([clock : nat -> Z]); the world counts the readings made so far.
    - Session objects are mutable Python objects reached through references:
      the world holds a store of objects addressed by [nat], and the registry
      maps identifiers to addresses, so that the local variable
      [webio_session] of the handler keeps denoting its object after the
      registry entry is gone.
    - A Python exception ends the request but keeps every mutation made
      before it: the handler monad returns the world together with either a
      value or the raised exception.  The exceptions modelled are the
      [KeyError]s of the handler's own accesses to the two dictionaries; the
      calls made on the request, on the session and [jsonify] are taken to
      return.
    - The handler runs one request at a time (the source has no lock; thread
      interleavings are outside this development). *)

From stdpp Require Import gmap strings list fin_maps functions sorting.
From Equations Require Import Equations.
From Equations.Prop Require Import Logic.
From Stdlib Require Import ZArith Lia Ascii.

Set Default Proof Using "Type".
(* stdpp's solvers clear hypotheses that may be gone already *)
Set Warnings "-clear-no-such-hyp".

(** ** Python's [collections.OrderedDict] with string keys

    An insertion-ordered list of items; the keys are pairwise distinct
    ([wf]).  The front of the list is the first item of the dictionary. *)
Module OrderedDict.
Section Ops.
Context {V : Type}.

Definition keys (d : list (string * V)) : list string := d.*1.

(** [key in d] *)
Definition contains (k : string) (d : list (string * V)) : bool :=
  bool_decide (k ∈ keys d).

(** [d[key]], [None] standing for [KeyError] *)
Fixpoint getitem (k : string) (d : list (string * V)) : option V :=
  match d with
  | [] => None
  | (k', v) :: d' => if decide (k' = k) then Some v else getitem k d'
  end.

(** the items of [d] whose key is not [k], in their order *)
Fixpoint remove (k : string) (d : list (string * V)) : list (string * V) :=
  match d with
  | [] => []
  | (k', v) :: d' =>
      if decide (k' = k) then remove k d' else (k', v) :: remove k d'
  end.

(** [del d[key]], [None] standing for [KeyError] *)
Definition delitem (k : string) (d : list (string * V))
  : option (list (string * V)) :=
  if contains k d then Some (remove k d) else None.

(** [d.popitem(last=False)]: the first item and the rest, [None] standing
    for [KeyError] on an empty dictionary *)
Definition popitem_first (d : list (string * V))
  : option ((string * V) * list (string * V)) :=
  match d with
  | [] => None
  | kv :: d' => Some (kv, d')
  end.

(** [d.move_to_end(key, last)], [None] standing for [KeyError] *)
Definition move_to_end (k : string) (last : bool) (d : list (string * V))
  : option (list (string * V)) :=
  match getitem k d with
  | None => None
  | Some v =>
      Some (if last then remove k d ++ [(k, v)] else (k, v) :: remove k d)
  end.

(** representation invariant: a dictionary holds a key once *)
Definition wf (d : list (string * V)) : Prop := NoDup (keys d).
End Ops.
End OrderedDict.

(** Modelled from the spec: [LRUDict] ([pywebio.utils]) is not among the
    sources.  The spec describes the tracker as an access-ordered structure
    whose [touch(id)] inserts or moves [id] to the most recently active end
    with the given timestamp: assigning [d[key] = value] puts the item at
    the end of the order, whether or not the key was present.  Every other
    operation is the one of [OrderedDict]. *)
Module LRUDict.
Definition setitem {V} (k : string) (v : V) (d : list (string * V))
  : list (string * V) :=
  OrderedDict.remove k d ++ [(k, v)].
End LRUDict.

(** ** Data of the handler *)

(** A message is a JSON object, kept as its key/value pairs. *)
Definition Message : Type := list (string * string).

(** [dict(command='close_session')] *)
Definition close_session_message : Message :=
  [("command", "close_session")]%string.

(** The session classes selected by [get_session_implement()]. *)
Inductive SessionImplement := CoroutineBased | ThreadBased.

(** The interface of [AbstractSession] used by the handler.  [Session] is
    the state of a session object; an operation returns the state it leaves
    the object in.  The session engine is an external collaborator: its
    calls are taken to return normally. *)
Class AbstractSession (Coro Payload Session : Type) := {
  CoroutineBasedSession : Coro -> Session;
  ThreadBasedSession : Coro -> Session;
  send_client_event : Payload -> Session -> Session;
  get_task_messages : Session -> list Message * Session;
  closed : Session -> bool
}.

(** HTTP methods routed to the view: the route lists GET and POST, and
    Flask adds HEAD to a route that accepts GET. *)
Inductive Method := GET | POST | HEAD.

(** The parts of Flask's [request] read by the handler:
    [request.args.get('test')], [request.headers] at ['webio-session-id'],
    [request.method] and [request.json]. *)
Record Request (Payload : Type) := mkRequest {
  args_test : option string;
  header_webio_session_id : option string;
  method : Method;
  json : Payload
}.
Arguments mkRequest {Payload}.
Arguments args_test {Payload}.
Arguments header_webio_session_id {Payload}.
Arguments method {Payload}.
Arguments json {Payload}.

(** Python truthiness of [request.args.get('test')] and of a header value:
    an absent value ([None]) and the empty string are falsy. *)
Definition truthy (v : option string) : bool :=
  match v with
  | None => false
  | Some s => negb (String.eqb s EmptyString)
  end.

Inductive Body := Text (s : string) | Json (msgs : list Message).

(** A response: its body and the ['webio-session-id'] response header. *)
Record Response := mkResponse {
  body : Body;
  response_webio_session_id : option string
}.

(** [jsonify(msgs)] *)
Definition jsonify (msgs : list Message) : Response := mkResponse (Json msgs) None.

Inductive Exn := KeyError (key : string).

Inductive Outcome (A : Type) := Return (a : A) | Raise (e : Exn).
Arguments Return {A}.
Arguments Raise {A}.

(** Calls made on the collaborators, in the order they are made: a ghost
    log, written by the model at the place of each call of the source and
    read by no code. *)
Inductive Event (Payload : Type) :=
| EvPush (obj : nat) (event : Payload)   (* webio_session.send_client_event *)
| EvSweep                                (* _remove_expired_sessions(...) *)
| EvEvict (sid : string)                 (* del _webio_sessions[sid], sweep *)
| EvPull (obj : nat)                     (* webio_session.get_task_messages *)
| EvClosed (obj : nat) (is_closed : bool)(* webio_session.closed() *)
| EvRemove (sid : string)                (* _remove_webio_session(sid) *)
| EvSetHeader (sid : string).            (* response.headers[...] = sid *)
Arguments EvPush {Payload}.
Arguments EvSweep {Payload}.
Arguments EvEvict {Payload}.
Arguments EvPull {Payload}.
Arguments EvClosed {Payload}.
Arguments EvRemove {Payload}.
Arguments EvSetHeader {Payload}.

Definition DEFAULT_SESSION_EXPIRE_SECONDS : Z := 60 * 60 * 4.
Definition REMOVE_EXPIRED_SESSIONS_INTERVAL : Z := 120.

(** The process-wide state. *)
Record World (Payload Session : Type) := mkWorld {
  objects : nat -> Session;          (* store of session objects *)
  next_object : nat;                 (* next free address of the store *)
  _webio_sessions : gmap string nat; (* WebIOSessionID -> session object *)
  _webio_expire : list (string * Z); (* LRUDict: id -> last active timestamp *)
  _last_check_session_expire_ts : Z;
  ticks : nat;                       (* readings of the clock made so far *)
  drawn : nat;                       (* random characters drawn so far *)
  trace : list (Event Payload)       (* ghost log, oldest first *)
}.
Arguments mkWorld {Payload Session}.
Arguments objects {Payload Session}.
Arguments next_object {Payload Session}.
Arguments _webio_sessions {Payload Session}.
Arguments _webio_expire {Payload Session}.
Arguments _last_check_session_expire_ts {Payload Session}.
Arguments ticks {Payload Session}.
Arguments drawn {Payload Session}.
Arguments trace {Payload Session}.

(** What the handler takes from outside the module: the successive
    readings of [time.time()], the successive choices of the random source
    behind [random_str], and the class returned by
    [get_session_implement()]. *)
Record Environment := mkEnvironment {
  clock : nat -> Z;
  rng : nat -> ascii;
  get_session_implement : SessionImplement
}.

(** ** A small session engine, for concrete runs

    The task of a [Countdown] session closes once it has received as many
    events as its entry point asks for; each pull hands out the messages
    queued since the last one. *)
Module Countdown.
Record Session := mk {
  remaining : nat;
  queue : list Message;
  inbox : list string
}.

Definition output (event : string) : Message :=
  [("command", "output"); ("spec", event)]%string.

Definition start (coro_func : nat) : Session :=
  match coro_func with
  | O => mk 0 [close_session_message] []
  | S _ => mk coro_func [] []
  end.

Definition push (event : string) (s : Session) : Session :=
  match remaining s with
  | O => s
  | 1 => mk 0 (queue s ++ [output event; close_session_message]) (inbox s ++ [event])
  | S n => mk n (queue s ++ [output event]) (inbox s ++ [event])
  end.

Definition pull (s : Session) : list Message * Session :=
  (queue s, mk (remaining s) [] (inbox s)).

Definition is_closed (s : Session) : bool :=
  bool_decide (remaining s = 0) && bool_decide (queue s = []).

#[global] Instance engine : AbstractSession nat string Session := {
  CoroutineBasedSession := start;
  ThreadBasedSession := start;
  send_client_event := push;
  get_task_messages := pull;
  closed := is_closed
}.
End Countdown.

(** ** Concrete states and requests, for the runs at the end *)
Module Scenario.
Import Countdown.

(** the reading of every clock call is [now] *)
Definition frozen (now : Z) : nat -> Z := fun _ => now.

(** a random source that always picks the same character *)
Definition stuck : nat -> ascii := fun _ => "a"%char.

Definition at_time (now : Z) : Environment :=
  mkEnvironment (frozen now) stuck ThreadBased.

(** the first reading is [start], each further one a second later *)
Definition advancing (start : Z) : nat -> Z :=
  fun n => (start + Z.of_nat n)%Z.

Definition ticking (start : Z) : Environment :=
  mkEnvironment (advancing start) stuck CoroutineBased.

Definition idle : Session := mk 3 [] [].

(** three sessions, last active at 1, 5 and 9 *)
Definition three_sessions : World string Session :=
  mkWorld (fun _ => idle) 3
    (<["s1" := 0]> (<["s2" := 1]> (<["s3" := 2]> ∅)))
    [("s1", 1); ("s2", 5); ("s3", 9)]%Z 0 0 0 [].

(** one session, registered under the identifier made of 24 times the
    character of [stuck] *)
Definition one_session : World string Session :=
  mkWorld (fun _ => idle) 1 (<["aaaaaaaaaaaaaaaaaaaaaaaa" := 0]> ∅)
    [("aaaaaaaaaaaaaaaaaaaaaaaa", 1)]%Z 0 0 0 [].

Definition empty_world : World string Session :=
  mkWorld (fun _ => idle) 0 ∅ [] 0 0 0 [].

Definition get (test sid : option string) : Request string :=
  mkRequest test sid GET EmptyString.

Definition post (sid : option string) (event : string) : Request string :=
  mkRequest None sid POST event.

(** a clock that reads 100 first and 50 ever after (it has been set back),
    with a random source that picks ["a"] for its first 24 choices and
    ["b"] afterwards *)
Definition set_back : Environment :=
  mkEnvironment (fun n => match n with O => 100 | S _ => 50 end)%Z
    (fun n => if (n <? 24)%nat then "a"%char else "b"%char) ThreadBased.

(** a tracker whose first record, for ["zz"], has no registry entry *)
Definition dangling : World string Session :=
  mkWorld (fun _ => idle) 1 (<["s1" := 0]> ∅)
    [("zz", 1); ("s1", 5)]%Z 0 0 0 [].
End Scenario.

(** ** The handler monad: state, with exceptions that keep the state *)
Section Flask.
Context {Coro Payload Session : Type}.
Context `{!AbstractSession Coro Payload Session}.

Variable env : Environment.

#[local] Abbreviation World := (World Payload Session).
#[local] Abbreviation Request := (Request Payload).

Definition M (A : Type) : Type := World -> World * Outcome A.

Definition ret {A} (a : A) : M A := fun w => (w, Return a).

Definition bind {A B} (m : M A) (k : A -> M B) : M B :=
  fun w =>
    match m w with
    | (w', Return a) => k a w'
    | (w', Raise e) => (w', Raise e)
    end.

#[local] Instance M_ret : MRet M := @ret.
#[local] Instance M_bind : MBind M := fun A B k m => bind m k.

(** *** Field updates *)
Definition set_objects (f : nat -> Session) (n : nat) (w : World) : World :=
  mkWorld f n (_webio_sessions w) (_webio_expire w)
    (_last_check_session_expire_ts w) (ticks w) (drawn w) (trace w).
Definition set_sessions (m : gmap string nat) (w : World) : World :=
  mkWorld (objects w) (next_object w) m (_webio_expire w)
    (_last_check_session_expire_ts w) (ticks w) (drawn w) (trace w).
Definition set_expire (d : list (string * Z)) (w : World) : World :=
  mkWorld (objects w) (next_object w) (_webio_sessions w) d
    (_last_check_session_expire_ts w) (ticks w) (drawn w) (trace w).
Definition set_last_check (t : Z) (w : World) : World :=
  mkWorld (objects w) (next_object w) (_webio_sessions w) (_webio_expire w)
    t (ticks w) (drawn w) (trace w).
Definition set_ticks (n : nat) (w : World) : World :=
  mkWorld (objects w) (next_object w) (_webio_sessions w) (_webio_expire w)
    (_last_check_session_expire_ts w) n (drawn w) (trace w).
Definition set_drawn (n : nat) (w : World) : World :=
  mkWorld (objects w) (next_object w) (_webio_sessions w) (_webio_expire w)
    (_last_check_session_expire_ts w) (ticks w) n (trace w).
Definition record (e : Event Payload) (w : World) : World :=
  mkWorld (objects w) (next_object w) (_webio_sessions w) (_webio_expire w)
    (_last_check_session_expire_ts w) (ticks w) (drawn w) (trace w ++ [e]).

(** *** Primitive actions *)

(** ghost: append to the log *)
Definition log (e : Event Payload) : M unit :=
  fun w => (record e w, Return tt).

(** [time.time()]: the next reading of the clock *)
Definition reading (w : World) : Z := clock env (ticks w).
Definition tick (w : World) : World := set_ticks (S (ticks w)) w.
Definition time_time : M Z := fun w => (tick w, Return (reading w)).

(** the string made of the choices [from], ..., [from + len - 1] of the
    random source *)
Definition draw (from len : nat) : string :=
  String.string_of_list_ascii (rng env <$> seq from len).

(** Modelled from the spec: [random_str] ([pywebio.utils]) is not among
    the sources.  The spec has the identifier made of random characters
    of the requested number; [random_str len] joins the next [len]
    choices of the random source. *)
Definition random_str (len : nat) : M string :=
  fun w => (set_drawn (drawn w + len) w, Return (draw (drawn w) len)).

(** calling a session class: a new object at the next free address *)
Definition new_object (s : Session) : M nat :=
  fun w =>
    (set_objects (<[next_object w := s]> (objects w)) (S (next_object w)) w,
     Return (next_object w)).

(** [_webio_sessions[sid] = obj] *)
Definition sessions_setitem (sid : string) (obj : nat) : M unit :=
  fun w => (set_sessions (<[sid := obj]> (_webio_sessions w)) w, Return tt).

(** [del _webio_sessions[sid]] *)
Definition sessions_delitem (sid : string) : M unit :=
  fun w =>
    match _webio_sessions w !! sid with
    | Some _ => (set_sessions (delete sid (_webio_sessions w)) w, Return tt)
    | None => (w, Raise (KeyError sid))
    end.

(** [_webio_expire[sid] = ts] *)
Definition expire_setitem (sid : string) (ts : Z) : M unit :=
  fun w => (set_expire (LRUDict.setitem sid ts (_webio_expire w)) w, Return tt).

(** [del _webio_expire[sid]] *)
Definition expire_delitem (sid : string) : M unit :=
  fun w =>
    match OrderedDict.delitem sid (_webio_expire w) with
    | Some d => (set_expire d w, Return tt)
    | None => (w, Raise (KeyError sid))
    end.

(** [_webio_expire.move_to_end(sid, last=False)] *)
Definition expire_move_to_front (sid : string) : M unit :=
  fun w =>
    match OrderedDict.move_to_end sid false (_webio_expire w) with
    | Some d => (set_expire d w, Return tt)
    | None => (w, Raise (KeyError sid))
    end.

(** [webio_session.send_client_event(event)] *)
Definition obj_send_client_event (obj : nat) (event : Payload) : M unit :=
  fun w =>
    (record (EvPush obj event)
       (set_objects (<[obj := send_client_event event (objects w obj)]> (objects w))
          (next_object w) w),
     Return tt).

(** [webio_session.get_task_messages()] *)
Definition obj_get_task_messages (obj : nat) : M (list Message) :=
  fun w =>
    let '(msgs, s) := get_task_messages (objects w obj) in
    (record (EvPull obj)
       (set_objects (<[obj := s]> (objects w)) (next_object w) w),
     Return msgs).

(** [webio_session.closed()] *)
Definition obj_closed (obj : nat) : M bool :=
  fun w =>
    (record (EvClosed obj (closed (objects w obj))) w,
     Return (closed (objects w obj))).

(** ** The functions of [flask.py] *)

(** [_make_response]: [jsonify(webio_session.get_task_messages())] *)
Definition _make_response (webio_session : nat) : M Response :=
  msgs ← obj_get_task_messages webio_session;
  ret (jsonify msgs).

(** The [while] loop of [_remove_expired_sessions].  One iteration pops
    the first item of [_webio_expire]; a fresh item is put back and moved
    to the front again, and the loop is left; an expired one has its
    session deleted, and the loop goes on with the rest. *)
Equations? sweep_loop (session_expire_seconds : Z) (w : World)
  : World * Outcome unit by wf (length (_webio_expire w)) lt :=
sweep_loop session_expire_seconds w with
    inspect (OrderedDict.popitem_first (_webio_expire w)) := {
  | exist _ None _ => (w, Return tt);
  | exist _ (Some ((sid, active_ts), rest)) Hpop with
        decide (reading (set_expire rest w) - active_ts
                < session_expire_seconds)%Z := {
      | left _ =>
          (expire_setitem sid active_ts;; expire_move_to_front sid)
            (tick (set_expire rest w));
      | right _ with
            inspect (sessions_delitem sid
                       (record (EvEvict sid) (tick (set_expire rest w)))) := {
          | exist _ (w', Return _) Hdel =>
              sweep_loop session_expire_seconds w';
          | exist _ (w', Raise e) _ => (w', Raise e) } } }.
Proof.
  unfold sessions_delitem in Hdel.
  destruct (_webio_expire w) as [|kv d] eqn:Hd; simplify_eq/=.
  destruct (_ !! sid); simplify_eq/=. lia.
Qed.

(** [_remove_expired_sessions] (lines 49-56) *)
Definition _remove_expired_sessions (session_expire_seconds : Z) : M unit :=
  log EvSweep;;
  sweep_loop session_expire_seconds.

(** [_remove_webio_session] (lines 62-64) *)
Definition _remove_webio_session (sid : string) : M unit :=
  log (EvRemove sid);;
  sessions_delitem sid;;
  expire_delitem sid.

(** reading the globals *)
Definition sessions_get (sid : string) : M (option nat) :=
  fun w => (w, Return (_webio_sessions w !! sid)).
Definition get_last_check : M Z :=
  fun w => (w, Return (_last_check_session_expire_ts w)).
Definition put_last_check (t : Z) : M unit :=
  fun w => (set_last_check t w, Return tt).

(** [response.headers['webio-session-id'] = sid] *)
Definition set_response_header (sid : string) (response : Response)
  : M Response :=
  log (EvSetHeader sid);;
  ret (mkResponse (body response) (Some sid)).

(** Lines 86-89 of [_webio_view]: the session made by the class in
    use. *)
Definition new_session (coro_func : Coro) : Session :=
  match get_session_implement env with
  | CoroutineBased => CoroutineBasedSession coro_func
  | ThreadBased => ThreadBasedSession coro_func
  end.

(** Lines 84-91 of [_webio_view]: start a new session.  Returns the
    locals [webio_session_id] and [webio_session]. *)
Definition start_new_session (coro_func : Coro) : M (string * nat) :=
  webio_session_id ← random_str 24;
  webio_session ← new_object (new_session coro_func);
  sessions_setitem webio_session_id webio_session;;
  now ← time_time;
  expire_setitem webio_session_id now;;
  ret (webio_session_id, webio_session).

(** Lines 98-102 of [_webio_view]: the client pushes an event. *)
Definition push_event (request : Request) (webio_session : nat) : M unit :=
  match method request with
  | POST => obj_send_client_event webio_session (json request)
  | GET => ret tt
  | HEAD => ret tt
  end.

(** Lines 104-106 of [_webio_view]: the sweep, when it is due. *)
Definition sweep_if_due (session_expire_seconds : Z) : M unit :=
  now ← time_time;
  last ← get_last_check;
  if decide (now - last > REMOVE_EXPIRED_SESSIONS_INTERVAL)%Z then
    _remove_expired_sessions session_expire_seconds;;
    now' ← time_time;
    put_last_check now'
  else ret tt.

(** Lines 108-113 of [_webio_view]: pull, closed check, header. *)
Definition respond (set_header : bool) (webio_session_id : string)
    (webio_session : nat) : M Response :=
  response ← _make_response webio_session;
  is_closed ← obj_closed webio_session;
  if (is_closed : bool) then
    _remove_webio_session webio_session_id;;
    ret response
  else if set_header then
    set_response_header webio_session_id response
  else ret response.

(** Lines 98-113 of [_webio_view], reached once the session is known. *)
Definition serve (session_expire_seconds : Z) (request : Request)
    (set_header : bool) (webio_session_id : string) (webio_session : nat)
  : M Response :=
  push_event request webio_session;;
  sweep_if_due session_expire_seconds;;
  respond set_header webio_session_id webio_session.

(** [_webio_view] (lines 67-113).  Setting asyncio's event loop for the
    calling thread (lines 78-79) touches none of the modelled state. *)
Definition _webio_view (coro_func : Coro) (session_expire_seconds : Z)
    (request : Request) : M Response :=
  if truthy (args_test request) then
    ret (mkResponse (Text "ok") None)
  else if negb (truthy (header_webio_session_id request)) then
    '(webio_session_id, webio_session) ← start_new_session coro_func;
    serve session_expire_seconds request true webio_session_id webio_session
  else
    let sid := default EmptyString (header_webio_session_id request) in
    found ← sessions_get sid;
    match found with
    | None => ret (jsonify [close_session_message])
    | Some webio_session =>
        serve session_expire_seconds request false sid webio_session
    end.

(** The module as loaded: both dictionaries empty, no sweep made yet
    ([_last_check_session_expire_ts = 0]).  [s0] fills the unused
    addresses of the store. *)
Definition initial_world (s0 : Session) : World :=
  mkWorld (fun _ => s0) 0 ∅ [] 0 0 0 [].

(** The state after a request, whatever its outcome. *)
Definition after {A} (m : M A) (w : World) : World := (m w).1.

(** Serving a list of requests one after the other. *)
Fixpoint run (coro_func : Coro) (session_expire_seconds : Z)
    (requests : list Request) (w : World) : World :=
  match requests with
  | [] => w
  | request :: rest =>
      run coro_func session_expire_seconds rest
        (after (_webio_view coro_func session_expire_seconds request) w)
  end.
(** The entries a sweep started at reading [t] finds expired: the
    longest prefix of the tracker whose entries are each beyond the idle
    budget at the reading made for them. *)
Fixpoint expired_prefix (session_expire_seconds : Z) (t : nat)
    (d : list (string * Z)) : list (string * Z) :=
  match d with
  | [] => []
  | (sid, active_ts) :: d' =>
      if decide (clock env t - active_ts < session_expire_seconds)%Z then []
      else (sid, active_ts) :: expired_prefix session_expire_seconds (S t) d'
  end.

(** ** States between the phases of a request *)

(** the state once the event of a POST has been pushed *)
Definition pushed (request : Request) (obj : nat) (w : World) : World :=
  match method request with
  | POST =>
      record (EvPush obj (json request))
        (set_objects
           (<[obj := send_client_event (json request) (objects w obj)]> (objects w))
           (next_object w) w)
  | _ => w
  end.

(** the state once [webio_session] has been pulled and asked whether it
    is closed *)
Definition pulled (obj : nat) (w : World) : World :=
  record (EvClosed obj (closed (get_task_messages (objects w obj)).2))
    (record (EvPull obj)
       (set_objects (<[obj := (get_task_messages (objects w obj)).2]> (objects w))
          (next_object w) w)).

(** ** The calls a request makes, phase by phase *)

(** lines 98-99: the push, on a POST only *)
Definition push_events (request : Request) (obj : nat) : list (Event Payload) :=
  match method request with
  | POST => [EvPush obj (json request)]
  | _ => []
  end.

(** line 104: the sweep is due *)
Definition sweep_due (w : World) : Prop :=
  (reading w - _last_check_session_expire_ts w
   > REMOVE_EXPIRED_SESSIONS_INTERVAL)%Z.

(** lines 105: the sweep and the registry deletions it makes *)
Definition sweep_events (w : World) (evicted : list string)
  : list (Event Payload) :=
  if decide (sweep_due w) then EvSweep :: (EvEvict <$> evicted) else [].

(** lines 109-112: removal of a closed session, else the header of a new
    one *)
Definition final_events (is_closed set_header : bool) (sid : string)
  : list (Event Payload) :=
  if is_closed then [EvRemove sid]
  else if set_header then [EvSetHeader sid] else [].

(** what the first pull of the session started by [request] returns,
    and the state it leaves the session in *)
Definition first_pull (coro_func : Coro) (request : Request) (w : World)
  : list Message * Session :=
  get_task_messages
    (objects (pushed request (next_object w)
                (after (start_new_session coro_func) w))
       (next_object w)).

(** ** Invariants *)

(** an expiry record exists exactly for the registered identifiers *)
Definition paired (w : World) : Prop :=
  ∀ sid, sid ∈ OrderedDict.keys (_webio_expire w)
         ↔ is_Some (_webio_sessions w !! sid).

(** the tracker is a dictionary, and it is paired with the registry *)
Definition consistent (w : World) : Prop :=
  OrderedDict.wf (_webio_expire w) ∧ paired w.

(** timestamps do not decrease from the front of the tracker to its end *)
Definition time_ordered (d : list (string * Z)) : Prop :=
  StronglySorted Z.le d.*2.

(** every stored timestamp is at most the next reading of the clock *)
Definition in_the_past (w : World) : Prop :=
  Forall (fun ts => (ts <= clock env (ticks w))%Z) (_webio_expire w).*2.

(** the readings of the clock never go back *)
Definition monotone_clock : Prop :=
  ∀ n m, (n ≤ m)%nat → (clock env n <= clock env m)%Z.

(** the tracker is a dictionary whose timestamps are ordered and past *)
Definition ordered (w : World) : Prop :=
  OrderedDict.wf (_webio_expire w) ∧
  time_ordered (_webio_expire w) ∧
  in_the_past w.

(** [w'] keeps entries of the tracker of [w], in their order and with
    their timestamps, and is not earlier than [w] *)
Definition shrinks (w w' : World) : Prop :=
  _webio_expire w' `sublist_of` _webio_expire w ∧ (ticks w ≤ ticks w')%nat.

(** ** The store behind the registry, and the session of a request *)

(** every registered object has been created, and no two identifiers
    share an object *)
Definition store_ok (w : World) : Prop :=
  (∀ sid obj, _webio_sessions w !! sid = Some obj → (obj < next_object w)%nat) ∧
  (∀ sid1 sid2 obj,
     _webio_sessions w !! sid1 = Some obj →
     _webio_sessions w !! sid2 = Some obj → sid1 = sid2).

(** Lines 74-96: the request is not answered early.  Either it presents
    no identifier: [sid] and [obj] are the identifier and the object of the
    session it starts, [w1] the state once the session is started, and the
    response is to carry the identifier; or it presents the identifier
    [sid], registered for [obj], and [w1] is the state as found. *)
Definition resolves (coro_func : Coro) (request : Request) (w : World)
    (set_header : bool) (sid : string) (obj : nat) (w1 : World) : Prop :=
  truthy (args_test request) = false ∧
  ((truthy (header_webio_session_id request) = false ∧
    start_new_session coro_func w = (w1, Return (sid, obj)) ∧
    set_header = true)
   ∨ (header_webio_session_id request = Some sid ∧ sid ≠ EmptyString ∧
      _webio_sessions w !! sid = Some obj ∧ w1 = w ∧ set_header = false)).

(** the records the sweep of a request removes: none when the sweep is not
    due, else the expired prefix of the tracker, the first record being
    inspected at the reading that follows the one of line 104 *)
Definition swept (session_expire_seconds : Z) (w : World)
  : list (string * Z) :=
  if decide (sweep_due w)
  then expired_prefix session_expire_seconds (S (ticks w)) (_webio_expire w)
  else [].

(** ** Dictionaries *)
Section Dict.
Context {V : Type}.
Implicit Types (d : list (string * V)) (k : string) (v : V).

Lemma elem_of_keys_remove k k' d :
  k' ∈ OrderedDict.keys (OrderedDict.remove k d)
  ↔ k' ∈ OrderedDict.keys d ∧ k' ≠ k.
Proof.
  unfold OrderedDict.keys. induction d as [|[k0 v0] d IH]; simpl.
  - set_solver.
  - case_decide; simpl; set_solver.
Qed.

Lemma remove_fresh k d :
  k ∉ OrderedDict.keys d → OrderedDict.remove k d = d.
Proof.
  unfold OrderedDict.keys. induction d as [|[k0 v0] d IH]; simpl; [done|].
  intros Hk. case_decide; [set_solver|]. f_equal. apply IH. set_solver.
Qed.

Lemma remove_sublist k d : OrderedDict.remove k d `sublist_of` d.
Proof.
  induction d as [|[k0 v0] d IH]; simpl; [done|].
  case_decide; by constructor.
Qed.

Lemma wf_remove k d : OrderedDict.wf d → OrderedDict.wf (OrderedDict.remove k d).
Proof.
  unfold OrderedDict.wf, OrderedDict.keys.
  intros Hd. eapply sublist_NoDup; [done|].
  apply fmap_sublist, remove_sublist.
Qed.

Lemma remove_app k d1 d2 :
  OrderedDict.remove k (d1 ++ d2)
  = OrderedDict.remove k d1 ++ OrderedDict.remove k d2.
Proof.
  induction d1 as [|[k0 v0] d1 IH]; simpl; [done|].
  case_decide; simpl; by rewrite IH.
Qed.

Lemma getitem_app_fresh k v d :
  k ∉ OrderedDict.keys d → OrderedDict.getitem k (d ++ [(k, v)]) = Some v.
Proof.
  unfold OrderedDict.keys. induction d as [|[k0 v0] d IH]; simpl; intros Hk.
  - by rewrite decide_True.
  - case_decide; [set_solver|]. apply IH. set_solver.
Qed.

Lemma elem_of_keys_setitem k v k' d :
  k' ∈ OrderedDict.keys (LRUDict.setitem k v d)
  ↔ k' = k ∨ k' ∈ OrderedDict.keys d.
Proof.
  unfold LRUDict.setitem. pose proof (elem_of_keys_remove k k' d) as H.
  unfold OrderedDict.keys in *. rewrite fmap_app, elem_of_app, H. simpl.
  destruct (decide (k' = k)); set_solver.
Qed.

Lemma wf_setitem k v d : OrderedDict.wf d → OrderedDict.wf (LRUDict.setitem k v d).
Proof.
  intros Hd. pose proof (wf_remove k d Hd) as Hr.
  pose proof (elem_of_keys_remove k k d) as Hk.
  unfold OrderedDict.wf, LRUDict.setitem, OrderedDict.keys in *.
  rewrite fmap_app. apply NoDup_app. split_and!; [done| |apply NoDup_singleton].
  simpl. intros x Hx. rewrite list_elem_of_singleton. intros ->.
  apply Hk in Hx. naive_solver.
Qed.

Lemma contains_false k d :
  OrderedDict.contains k d = false ↔ k ∉ OrderedDict.keys d.
Proof. unfold OrderedDict.contains. by rewrite bool_decide_eq_false. Qed.

(** putting the popped first item back and moving it to the front
    restores the dictionary *)
Lemma put_back_first k v d :
  OrderedDict.wf ((k, v) :: d) →
  OrderedDict.move_to_end k false (LRUDict.setitem k v d) = Some ((k, v) :: d).
Proof.
  unfold OrderedDict.wf, OrderedDict.keys. simpl. intros Hd.
  apply NoDup_cons in Hd as [Hk Hd].
  unfold OrderedDict.move_to_end, LRUDict.setitem.
  rewrite (remove_fresh k d Hk), (getitem_app_fresh k v d Hk).
  rewrite remove_app, (remove_fresh k d Hk). simpl.
  rewrite decide_True by done. by rewrite app_nil_r.
Qed.
End Dict.

(** The loop, one iteration unfolded. *)
Lemma sweep_loop_eq B (w : World) :
  sweep_loop B w =
  match _webio_expire w with
  | [] => (w, Return tt)
  | (sid, active_ts) :: rest =>
      let w1 := tick (set_expire rest w) in
      if decide (reading w - active_ts < B)%Z then
        (expire_setitem sid active_ts;; expire_move_to_front sid) w1
      else
        match sessions_delitem sid (record (EvEvict sid) w1) with
        | (w2, Return _) => sweep_loop B w2
        | (w2, Raise e) => (w2, Raise e)
        end
  end.
Proof.
  funelim (sweep_loop B w).
  all: try (destruct (_webio_expire w) as [|[k v] d]; simplify_eq/=).
  all: unfold reading in *; simpl in *; try done.
  all: case_decide; try done; try lia.
  all: match goal with H : sessions_delitem _ _ = _ |- _ => by rewrite H end.
Qed.


(** Induction along the iterations of the loop. *)
Lemma sweep_loop_cases B (P : World → World * Outcome unit → Prop) :
  (∀ w, _webio_expire w = [] → P w (w, Return tt)) →
  (∀ w sid ts rest,
      _webio_expire w = (sid, ts) :: rest → (reading w - ts < B)%Z →
      P w ((expire_setitem sid ts;; expire_move_to_front sid)
             (tick (set_expire rest w)))) →
  (∀ w sid ts rest,
      _webio_expire w = (sid, ts) :: rest → ¬ (reading w - ts < B)%Z →
      _webio_sessions w !! sid = None →
      P w (record (EvEvict sid) (tick (set_expire rest w)),
           Raise (KeyError sid))) →
  (∀ w sid ts rest obj,
      _webio_expire w = (sid, ts) :: rest → ¬ (reading w - ts < B)%Z →
      _webio_sessions w !! sid = Some obj →
      let w' := set_sessions (delete sid (_webio_sessions w))
                  (record (EvEvict sid) (tick (set_expire rest w))) in
      P w' (sweep_loop B w') → P w (sweep_loop B w')) →
  ∀ w, P w (sweep_loop B w).
Proof.
  intros Hnil Hfresh Herr Hgo w.
  remember (length (_webio_expire w)) as n eqn:Hn.
  revert w Hn. induction n as [|n IH]; intros w Hn; rewrite sweep_loop_eq.
  - destruct (_webio_expire w) eqn:Hd; [|done]. by apply Hnil.
  - destruct (_webio_expire w) as [|[sid ts] rest] eqn:Hd; [done|].
    cbv zeta. case_decide as Hage.
    + by eapply Hfresh.
    + unfold sessions_delitem. cbn [_webio_sessions record tick set_ticks set_expire].
      destruct (_webio_sessions w !! sid) as [obj|] eqn:Hs.
      * eapply Hgo; [done..|]. apply IH. simpl in *. lia.
      * by eapply Herr.
Qed.

(** A fresh first entry is put back where it was: the iteration only
    costs its reading of the clock. *)
Lemma put_back (w : World) sid ts rest :
  OrderedDict.wf (_webio_expire w) →
  _webio_expire w = (sid, ts) :: rest →
  (expire_setitem sid ts;; expire_move_to_front sid) (tick (set_expire rest w))
  = (tick w, Return tt).
Proof.
  intros Hwf Hd. rewrite Hd in Hwf.
  unfold mbind, M_bind, bind, expire_setitem, expire_move_to_front.
  cbn [_webio_expire set_expire tick set_ticks].
  rewrite (put_back_first _ _ _ Hwf).
  destruct w; simpl in *; by subst.
Qed.

(** What a sweep leaves alone, whatever the state it starts in. *)
Lemma sweep_loop_frame B (w : World) :
  let w' := (sweep_loop B w).1 in
  objects w' = objects w ∧ next_object w' = next_object w ∧
  _last_check_session_expire_ts w' = _last_check_session_expire_ts w ∧
  drawn w' = drawn w ∧ (ticks w ≤ ticks w')%nat ∧
  ∃ sids, trace w' = trace w ++ (EvEvict <$> sids).
Proof.
  apply (sweep_loop_cases B (fun w r =>
    objects r.1 = objects w ∧ next_object r.1 = next_object w ∧
    _last_check_session_expire_ts r.1 = _last_check_session_expire_ts w ∧
    drawn r.1 = drawn w ∧ (ticks w ≤ ticks r.1)%nat ∧
    ∃ sids, trace r.1 = trace w ++ (EvEvict <$> sids))).
  - intros w0 _. split_and!; try done. exists []. by rewrite app_nil_r.
  - intros w0 sid ts rest _ _.
    unfold mbind, M_bind, bind, expire_setitem, expire_move_to_front.
    cbn [_webio_expire set_expire tick set_ticks].
    destruct (OrderedDict.move_to_end _ _ _); simpl;
      (split_and!; [done|done|done|done|lia|]); exists []; by rewrite app_nil_r.
  - intros w0 sid ts rest _ _ _. simpl.
    split_and!; [done|done|done|done|lia|]. by exists [sid].
  - intros w0 sid ts rest obj _ _ _ w1 (Ho & Hn & Hl & Hd & Ht & sids & Hs).
    subst w1. simpl in *. split_and!; [done|done|done|done|lia|].
    exists (sid :: sids). rewrite Hs. by rewrite <-app_assoc.
Qed.

(** The tracker a sweep leaves is a suffix of the one it found. *)
Lemma sweep_loop_suffix B (w : World) :
  OrderedDict.wf (_webio_expire w) →
  ∃ gone, _webio_expire w = gone ++ _webio_expire (sweep_loop B w).1.
Proof.
  apply (sweep_loop_cases B (fun w r =>
    OrderedDict.wf (_webio_expire w) →
    ∃ gone, _webio_expire w = gone ++ _webio_expire r.1)).
  - intros w0 _ _. by exists [].
  - intros w0 sid ts rest Hd _ Hwf. rewrite (put_back _ _ _ _ Hwf Hd).
    by exists [].
  - intros w0 sid ts rest Hd _ _ _. simpl. rewrite Hd. by exists [(sid, ts)].
  - intros w0 sid ts rest obj Hd _ _ w1 IH Hwf. subst w1. simpl in *.
    destruct IH as [gone Hgone].
    + rewrite Hd in Hwf. unfold OrderedDict.wf in *. simpl in Hwf.
      by apply NoDup_cons in Hwf as [_ ?].
    + exists ((sid, ts) :: gone). rewrite Hd. simpl. by f_equal.
Qed.

(** On a paired state the sweep runs to its end and leaves a paired
    state. *)
Lemma sweep_loop_paired B (w : World) :
  OrderedDict.wf (_webio_expire w) → paired w →
  (sweep_loop B w).2 = Return tt ∧ paired (sweep_loop B w).1.
Proof.
  apply (sweep_loop_cases B (fun w r =>
    OrderedDict.wf (_webio_expire w) → paired w →
    r.2 = Return tt ∧ paired r.1)).
  - done.
  - intros w0 sid ts rest Hd _ Hwf Hp. rewrite (put_back _ _ _ _ Hwf Hd).
    split; [done|]. exact Hp.
  - intros w0 sid ts rest Hd _ Hs Hwf Hp. exfalso.
    assert (is_Some (_webio_sessions w0 !! sid)) as [? ?]; [|congruence].
    apply Hp. rewrite Hd. simpl. set_solver.
  - intros w0 sid ts rest obj Hd _ Hs w1 IH Hwf Hp. subst w1.
    rewrite Hd in Hwf. unfold OrderedDict.wf in Hwf. simpl in Hwf.
    apply NoDup_cons in Hwf as [Hsid Hrest].
    apply IH; simpl; [done|].
    intros k. specialize (Hp k). rewrite Hd in Hp. simpl in *.
    rewrite lookup_delete_is_Some. unfold OrderedDict.keys in *.
    set_solver.
Qed.

(** The sweep on a tracker whose identifiers are all registered: it
    removes [expired_prefix] from the tracker and from the registry, makes
    one reading of the clock for each entry it inspects, and stops on an
    entry that is within the budget. *)
Lemma sweep_loop_spec B (w : World) :
  OrderedDict.wf (_webio_expire w) →
  (∀ sid, sid ∈ OrderedDict.keys (_webio_expire w)
          → is_Some (_webio_sessions w !! sid)) →
  (sweep_loop B w).2 = Return tt ∧
  _webio_expire w
  = expired_prefix B (ticks w) (_webio_expire w)
    ++ _webio_expire (sweep_loop B w).1 ∧
  (∀ sid, _webio_sessions (sweep_loop B w).1 !! sid
          = if decide (sid ∈ OrderedDict.keys
                         (expired_prefix B (ticks w) (_webio_expire w)))
            then None else _webio_sessions w !! sid) ∧
  ticks (sweep_loop B w).1
  = (ticks w + length (expired_prefix B (ticks w) (_webio_expire w))
     + (if _webio_expire (sweep_loop B w).1 is [] then 0 else 1))%nat ∧
  trace (sweep_loop B w).1
  = trace w ++ (EvEvict <$> OrderedDict.keys
                  (expired_prefix B (ticks w) (_webio_expire w))) ∧
  match _webio_expire (sweep_loop B w).1 with
  | [] => True
  | (_, ts) :: _ =>
      (clock env (ticks w + length (expired_prefix B (ticks w) (_webio_expire w)))
       - ts < B)%Z
  end.
Proof.
  revert w. apply (sweep_loop_cases B (fun w r =>
    OrderedDict.wf (_webio_expire w) →
    (∀ sid, sid ∈ OrderedDict.keys (_webio_expire w)
            → is_Some (_webio_sessions w !! sid)) →
    r.2 = Return tt ∧
    _webio_expire w
    = expired_prefix B (ticks w) (_webio_expire w) ++ _webio_expire r.1 ∧
    (∀ sid, _webio_sessions r.1 !! sid
            = if decide (sid ∈ OrderedDict.keys
                           (expired_prefix B (ticks w) (_webio_expire w)))
              then None else _webio_sessions w !! sid) ∧
    ticks r.1
    = (ticks w + length (expired_prefix B (ticks w) (_webio_expire w))
       + (if _webio_expire r.1 is [] then 0 else 1))%nat ∧
    trace r.1
    = trace w ++ (EvEvict <$> OrderedDict.keys
                    (expired_prefix B (ticks w) (_webio_expire w))) ∧
    match _webio_expire r.1 with
    | [] => True
    | (_, ts) :: _ =>
        (clock env (ticks w + length (expired_prefix B (ticks w) (_webio_expire w)))
         - ts < B)%Z
    end)).
  - intros w0 Hd _ _. simpl. rewrite !Hd. simpl.
    split_and!; try done; try lia. by rewrite app_nil_r.
  - intros w0 sid ts rest Hd Hage Hwf _. rewrite (put_back _ _ _ _ Hwf Hd).
    rewrite Hd. unfold reading in Hage. simpl.
    rewrite decide_True by done. simpl. rewrite Hd, app_nil_r, Nat.add_0_r.
    split_and!; try done. lia.
  - intros w0 sid ts rest Hd _ Hs _ Hreg. exfalso.
    assert (is_Some (_webio_sessions w0 !! sid)) as [? ?]; [|congruence].
    apply Hreg. rewrite Hd. simpl. set_solver.
  - intros w0 sid ts rest obj Hd Hage Hs w1 IH Hwf Hreg. subst w1.
    rewrite Hd in Hwf. unfold OrderedDict.wf in Hwf. simpl in Hwf.
    apply NoDup_cons in Hwf as [Hsid Hrest].
    unfold reading in Hage. rewrite Hd. simpl in *.
    rewrite decide_False by done.
    destruct IH as (Hret & Hsuf & Hlook & Htick & Htr & Hhead); [done| |].
    { intros k Hk. rewrite lookup_delete_is_Some. split.
      - intros ->. by apply Hsid.
      - apply Hreg. rewrite Hd. simpl. set_solver. }
    split_and!.
    + done.
    + simpl. by f_equal.
    + intros k. rewrite Hlook. simpl.
      destruct (decide (k = sid)) as [->|Hne].
      * rewrite lookup_delete_eq. rewrite (decide_True (P:=sid ∈ sid :: _)) by set_solver.
        by case_decide.
      * rewrite lookup_delete_ne by done.
        repeat case_decide; set_solver.
    + rewrite Htick. simpl. lia.
    + rewrite Htr. simpl. by rewrite <-app_assoc.
    + cbn [length]. rewrite Nat.add_succ_r. exact Hhead.
Qed.

Lemma expired_prefix_expired B T t d :
  (∀ n, clock env n = T) →
  Forall (fun item => (T - item.2 >= B)%Z) (expired_prefix B t d).
Proof.
  intros Hclock. revert t. induction d as [|[k ts] d IH]; intros t; simpl.
  - constructor.
  - case_decide as Hage; [constructor|]. rewrite Hclock in Hage.
    constructor; [simpl; lia|]. apply IH.
Qed.

Lemma _remove_expired_sessions_eq B (w : World) :
  _remove_expired_sessions B w = sweep_loop B (record EvSweep w).
Proof. reflexivity. Qed.

Lemma fresh_suffix B T (d : list (string * Z)) :
  StronglySorted Z.lt d.*2 →
  match d with [] => True | (_, ts) :: _ => (T - ts < B)%Z end →
  Forall (fun item => (T - item.2 < B)%Z) d.
Proof.
  destruct d as [|[k ts] d]; simpl; [constructor|].
  intros Hs Hts. apply StronglySorted_inv in Hs as [_ Hall].
  constructor; [done|].
  rewrite Forall_fmap in Hall. eapply Forall_impl; [exact Hall|].
  simpl. intros [k' ts'] ?. simpl in *. lia.
Qed.

(** ** The phases of a request *)

Lemma start_new_session_eq coro_func (w : World) :
  start_new_session coro_func w
  = (mkWorld (<[next_object w := new_session coro_func]> (objects w))
       (S (next_object w))
       (<[draw (drawn w) 24 := next_object w]> (_webio_sessions w))
       (LRUDict.setitem (draw (drawn w) 24) (reading w) (_webio_expire w))
       (_last_check_session_expire_ts w) (S (ticks w)) (drawn w + 24)
       (trace w),
     Return (draw (drawn w) 24, next_object w)).
Proof. reflexivity. Qed.

Lemma sweep_if_due_eq B (w : World) :
  sweep_if_due B w
  = if decide (reading w - _last_check_session_expire_ts w
               > REMOVE_EXPIRED_SESSIONS_INTERVAL)%Z
    then match sweep_loop B (record EvSweep (tick w)) with
         | (w', Return _) => (set_last_check (reading w') (tick w'), Return tt)
         | (w', Raise e) => (w', Raise e)
         end
    else (tick w, Return tt).
Proof.
  unfold sweep_if_due, mbind, M_bind, bind, time_time, get_last_check.
  cbn [_last_check_session_expire_ts tick set_ticks].
  case_decide; [|done].
  rewrite _remove_expired_sessions_eq.
  by destruct (sweep_loop B _) as [w' [[]|e]].
Qed.

Lemma sweep_if_due_frame B (w : World) :
  objects (sweep_if_due B w).1 = objects w ∧
  next_object (sweep_if_due B w).1 = next_object w ∧
  drawn (sweep_if_due B w).1 = drawn w ∧
  (ticks w < ticks (sweep_if_due B w).1)%nat ∧
  ∃ sids,
    trace (sweep_if_due B w).1
    = trace w ++
      if decide (reading w - _last_check_session_expire_ts w
                 > REMOVE_EXPIRED_SESSIONS_INTERVAL)%Z
      then EvSweep :: (EvEvict <$> sids) else [].
Proof.
  rewrite sweep_if_due_eq. case_decide.
  - destruct (sweep_loop_frame B (record EvSweep (tick w)))
      as (Ho & Hn & _ & Hd & Ht & sids & Htr).
    destruct (sweep_loop B _) as [w' [[]|e]]; simpl in *;
      (split_and!; [done|done|done|lia|]); exists sids;
      by rewrite Htr, <-app_assoc.
  - simpl. split_and!; [done|done|done|lia|]. exists [].
    by rewrite app_nil_r.
Qed.

Lemma sweep_if_due_suffix B (w : World) :
  OrderedDict.wf (_webio_expire w) →
  ∃ gone, _webio_expire w = gone ++ _webio_expire (sweep_if_due B w).1.
Proof.
  intros Hwf. rewrite sweep_if_due_eq. case_decide.
  - destruct (sweep_loop_suffix B (record EvSweep (tick w)) Hwf) as [gone Hg].
    exists gone. by destruct (sweep_loop B _) as [w' [[]|e]].
  - by exists [].
Qed.

Lemma wf_suffix (gone d : list (string * Z)) :
  OrderedDict.wf (gone ++ d) → OrderedDict.wf d.
Proof.
  unfold OrderedDict.wf, OrderedDict.keys. rewrite fmap_app.
  intros H. by apply NoDup_app in H as (_ & _ & ?).
Qed.

Lemma consistent_frame (w w' : World) :
  _webio_sessions w' = _webio_sessions w →
  _webio_expire w' = _webio_expire w →
  consistent w → consistent w'.
Proof.
  unfold consistent, paired. intros -> ->. done.
Qed.

Lemma sweep_if_due_consistent B (w : World) :
  consistent w →
  (sweep_if_due B w).2 = Return tt ∧ consistent (sweep_if_due B w).1.
Proof.
  intros [Hwf Hp].
  destruct (sweep_if_due_suffix B w Hwf) as [gone Hgone].
  assert (OrderedDict.wf (_webio_expire (sweep_if_due B w).1)) as Hwf'.
  { apply (wf_suffix gone). by rewrite <-Hgone. }
  revert Hwf'. rewrite sweep_if_due_eq. case_decide.
  - destruct (sweep_loop_paired B (record EvSweep (tick w)) Hwf Hp)
      as [Hret Hp'].
    destruct (sweep_loop B _) as [w' [[]|e]]; [|done]. simpl in *.
    intros Hwf'. split; [done|]. split; [done|]. exact Hp'.
  - intros _. split; [done|]. split; [done|]. exact Hp.
Qed.

Lemma start_new_session_consistent coro_func (w : World) :
  consistent w → consistent (start_new_session coro_func w).1.
Proof.
  intros [Hwf Hp]. rewrite start_new_session_eq. split; simpl.
  - by apply wf_setitem.
  - intros k. simpl. rewrite elem_of_keys_setitem, lookup_insert_is_Some.
    specialize (Hp k). destruct (decide (draw (drawn w) 24 = k)); naive_solver.
Qed.

Lemma _remove_webio_session_consistent sid (w : World) :
  consistent w → consistent (_remove_webio_session sid w).1.
Proof.
  intros [Hwf Hp].
  unfold _remove_webio_session, mbind, M_bind, bind, log,
    sessions_delitem, expire_delitem.
  cbn [_webio_sessions _webio_expire record set_sessions set_expire].
  destruct (_webio_sessions w !! sid) as [obj|] eqn:Hs; [|done].
  cbn [_webio_sessions _webio_expire record set_sessions set_expire].
  unfold OrderedDict.delitem.
  destruct (OrderedDict.contains sid (_webio_expire w)) eqn:Hc.
  - split; simpl; [by apply wf_remove|].
    intros k. simpl. rewrite elem_of_keys_remove, lookup_delete_is_Some.
    specialize (Hp k). naive_solver.
  - apply contains_false in Hc. exfalso. apply Hc, Hp. by rewrite Hs.
Qed.

Lemma _remove_webio_session_eq sid (w : World) :
  _remove_webio_session sid w
  = match _webio_sessions w !! sid with
    | None => (record (EvRemove sid) w, Raise (KeyError sid))
    | Some _ =>
        let w1 := set_sessions (delete sid (_webio_sessions w))
                    (record (EvRemove sid) w) in
        match OrderedDict.delitem sid (_webio_expire w) with
        | Some d => (set_expire d w1, Return tt)
        | None => (w1, Raise (KeyError sid))
        end
    end.
Proof.
  unfold _remove_webio_session, mbind, M_bind, bind, log,
    sessions_delitem, expire_delitem.
  cbn [_webio_sessions _webio_expire record set_sessions set_expire].
  destruct (_webio_sessions w !! sid); [|done].
  cbn [_webio_sessions _webio_expire record set_sessions set_expire].
  by destruct (OrderedDict.delitem sid (_webio_expire w)).
Qed.

Lemma respond_eq (set_header : bool) sid obj (w : World) :
  respond set_header sid obj w
  = let msgs := (get_task_messages (objects w obj)).1 in
    if closed (get_task_messages (objects w obj)).2 then
      match _remove_webio_session sid (pulled obj w) with
      | (w', Return _) => (w', Return (jsonify msgs))
      | (w', Raise e) => (w', Raise e)
      end
    else if set_header then
      (record (EvSetHeader sid) (pulled obj w),
       Return (mkResponse (Json msgs) (Some sid)))
    else (pulled obj w, Return (jsonify msgs)).
Proof.
  unfold respond, _make_response, obj_get_task_messages, obj_closed, pulled,
    set_response_header, mbind, M_bind, bind, mret, M_ret, ret, log.
  destruct (get_task_messages (objects w obj)) as [msgs s].
  cbn [fst snd objects record set_objects]. rewrite fn_lookup_insert.
  destruct (closed s); [|by destruct set_header].
  by destruct (_remove_webio_session sid _) as [w' [[]|e]].
Qed.

Lemma push_event_eq (request : Request) obj (w : World) :
  push_event request obj w = (pushed request obj w, Return tt).
Proof. unfold push_event, pushed. by destruct (method request). Qed.

Lemma serve_eq B (request : Request) (set_header : bool) sid obj (w : World) :
  serve B request set_header sid obj w
  = match sweep_if_due B (pushed request obj w) with
    | (w', Return _) => respond set_header sid obj w'
    | (w', Raise e) => (w', Raise e)
    end.
Proof.
  unfold serve, mbind, M_bind, bind. rewrite push_event_eq.
  by destruct (sweep_if_due B _) as [w' [[]|e]].
Qed.

Lemma _webio_view_eq coro_func B (request : Request) (w : World) :
  _webio_view coro_func B request w
  = if truthy (args_test request) then (w, Return (mkResponse (Text "ok") None))
    else if negb (truthy (header_webio_session_id request)) then
      serve B request true (draw (drawn w) 24) (next_object w)
        (start_new_session coro_func w).1
    else
      match _webio_sessions w
            !! (default EmptyString (header_webio_session_id request)) with
      | None => (w, Return (jsonify [close_session_message]))
      | Some obj =>
          serve B request false
            (default EmptyString (header_webio_session_id request)) obj w
      end.
Proof.
  unfold _webio_view. destruct (truthy (args_test request)); [done|].
  destruct (negb _); [done|].
  unfold mbind, M_bind, bind, sessions_get.
  by destruct (_ !! _).
Qed.

Lemma pushed_consistent (request : Request) obj (w : World) :
  consistent w → consistent (pushed request obj w).
Proof. apply consistent_frame; unfold pushed; by destruct (method request). Qed.

Lemma pulled_consistent obj (w : World) :
  consistent w → consistent (pulled obj w).
Proof. by apply consistent_frame. Qed.

Lemma respond_consistent (set_header : bool) sid obj (w : World) :
  consistent w → consistent (respond set_header sid obj w).1.
Proof.
  intros Hw. rewrite respond_eq. cbv zeta.
  destruct (closed _).
  - pose proof (_remove_webio_session_consistent sid _ (pulled_consistent obj w Hw)).
    by destruct (_remove_webio_session sid _) as [w' [[]|e]].
  - destruct set_header; simpl.
    + eapply consistent_frame; [..|exact (pulled_consistent obj w Hw)]; done.
    + by apply pulled_consistent.
Qed.

Lemma serve_consistent B (request : Request) (set_header : bool) sid obj (w : World) :
  consistent w → consistent (serve B request set_header sid obj w).1.
Proof.
  intros Hw. rewrite serve_eq.
  destruct (sweep_if_due_consistent B _ (pushed_consistent request obj w Hw))
    as [Hret Hc].
  destruct (sweep_if_due B _) as [w' [[]|e]]; [|done].
  by apply respond_consistent.
Qed.

Lemma _webio_view_consistent coro_func B (request : Request) (w : World) :
  consistent w → consistent (_webio_view coro_func B request w).1.
Proof.
  intros Hw. rewrite _webio_view_eq.
  destruct (truthy (args_test request)); [done|].
  destruct (negb _).
  - by apply serve_consistent, start_new_session_consistent.
  - destruct (_ !! _); [|done]. by apply serve_consistent.
Qed.

(** every state reached from the module as loaded is consistent *)
Lemma run_consistent coro_func B (requests : list Request) (w : World) :
  consistent w → consistent (run coro_func B requests w).
Proof.
  revert w. induction requests as [|request rest IH]; intros w Hw; [done|].
  simpl. by apply IH, _webio_view_consistent.
Qed.

Lemma initial_world_consistent s0 : consistent (initial_world s0).
Proof.
  split; simpl.
  - constructor.
  - intros sid. simpl. rewrite lookup_empty, is_Some_alt.
    split; [by intros ?%elem_of_nil|done].
Qed.

(** Whatever requests have been served since the module was loaded, an
    expiry record exists exactly for the registered identifiers. *)
Lemma reachable_consistent coro_func B (requests : list Request) s0 :
  consistent (run coro_func B requests (initial_world s0)).
Proof. apply run_consistent, initial_world_consistent. Qed.

Lemma respond_trace (set_header : bool) sid obj (w : World) :
  trace (respond set_header sid obj w).1
  = trace w
    ++ [EvPull obj; EvClosed obj (closed (get_task_messages (objects w obj)).2)]
    ++ final_events (closed (get_task_messages (objects w obj)).2)
         set_header sid.
Proof.
  rewrite respond_eq. cbv zeta. unfold final_events.
  destruct (closed _) eqn:Hc.
  - rewrite _remove_webio_session_eq.
    destruct (_webio_sessions _ !! sid); cbv zeta;
      [destruct (OrderedDict.delitem _ _)|]; simpl;
      rewrite Hc, <-!app_assoc; done.
  - destruct set_header; simpl; rewrite ?Hc, <-!app_assoc; done.
Qed.

Lemma respond_response (set_header : bool) sid obj (w : World) response :
  (respond set_header sid obj w).2 = Return response →
  body response = Json (get_task_messages (objects w obj)).1 ∧
  response_webio_session_id response
  = if closed (get_task_messages (objects w obj)).2 then None
    else if set_header then Some sid else None.
Proof.
  rewrite respond_eq. cbv zeta.
  destruct (closed _).
  - destruct (_remove_webio_session sid _) as [w' [[]|e]]; [|done].
    simpl. by intros [= <-].
  - destruct set_header; simpl; by intros [= <-].
Qed.

Lemma serve_trace B (request : Request) (set_header : bool) sid obj (w : World) :
  consistent w →
  ∃ evicted,
    trace (serve B request set_header sid obj w).1
    = trace w
      ++ push_events request obj
      ++ sweep_events w evicted
      ++ [EvPull obj;
          EvClosed obj
            (closed (get_task_messages (objects (pushed request obj w) obj)).2)]
      ++ final_events
           (closed (get_task_messages (objects (pushed request obj w) obj)).2)
           set_header sid.
Proof.
  intros Hw. rewrite serve_eq.
  destruct (sweep_if_due_consistent B _ (pushed_consistent request obj w Hw))
    as [Hret _].
  destruct (sweep_if_due_frame B (pushed request obj w))
    as (Hobj & _ & _ & _ & evicted & Htr).
  exists evicted.
  destruct (sweep_if_due B _) as [w' [[]|e]]; [|done]. simpl in *.
  rewrite respond_trace, Hobj, Htr.
  assert (trace (pushed request obj w) = trace w ++ push_events request obj)
    as ->.
  { unfold pushed, push_events. destruct (method request); simpl;
      by rewrite ?app_nil_r. }
  assert (sweep_events w evicted
          = if decide (reading (pushed request obj w)
                       - _last_check_session_expire_ts (pushed request obj w)
                       > REMOVE_EXPIRED_SESSIONS_INTERVAL)%Z
            then EvSweep :: (EvEvict <$> evicted) else []) as ->.
  { unfold sweep_events, sweep_due, pushed, reading.
    by destruct (method request). }
  by rewrite <-!app_assoc.
Qed.

Lemma serve_response B (request : Request) (set_header : bool) sid obj (w : World)
    response :
  (serve B request set_header sid obj w).2 = Return response →
  body response
  = Json (get_task_messages (objects (pushed request obj w) obj)).1 ∧
  response_webio_session_id response
  = if closed (get_task_messages (objects (pushed request obj w) obj)).2
    then None
    else if set_header then Some sid else None.
Proof.
  rewrite serve_eq.
  destruct (sweep_if_due_frame B (pushed request obj w)) as (Hobj & _).
  destruct (sweep_if_due B _) as [w' [[]|e]]; [|done]. simpl in *.
  intros Hr. apply respond_response in Hr. by rewrite Hobj in Hr.
Qed.

Lemma draw_length from len : String.length (draw from len) = len.
Proof.
  assert (∀ l, String.length (String.string_of_list_ascii l) = length l)
    as Hlen by (induction l; simpl; by f_equal).
  unfold draw. by rewrite Hlen, length_fmap, length_seq.
Qed.

Lemma respond_closed_removes (set_header : bool) sid obj (w : World) :
  consistent w →
  closed (get_task_messages (objects w obj)).2 = true →
  (sid ∉ OrderedDict.keys (_webio_expire (respond set_header sid obj w).1)) ∧
  _webio_sessions (respond set_header sid obj w).1 !! sid = None.
Proof.
  intros Hw Hc.
  pose proof (respond_consistent set_header sid obj w Hw) as [_ Hp].
  assert (_webio_sessions (respond set_header sid obj w).1 !! sid = None)
    as Hnone.
  { rewrite respond_eq. cbv zeta. rewrite Hc, _remove_webio_session_eq.
    destruct (_webio_sessions (pulled obj w) !! sid) eqn:Hs; [|done].
    cbv zeta. destruct (OrderedDict.delitem _ _); simpl;
      by rewrite lookup_delete_eq. }
  split; [|done]. intros Hin. apply Hp in Hin as [? Hin]. congruence.
Qed.

Lemma serve_closed_removes B (request : Request) (set_header : bool) sid obj
    (w : World) :
  consistent w →
  closed (get_task_messages (objects (pushed request obj w) obj)).2 = true →
  (sid ∉ OrderedDict.keys
           (_webio_expire (serve B request set_header sid obj w).1)) ∧
  _webio_sessions (serve B request set_header sid obj w).1 !! sid = None.
Proof.
  intros Hw Hc. rewrite serve_eq.
  destruct (sweep_if_due_consistent B _ (pushed_consistent request obj w Hw))
    as [Hret Hw'].
  destruct (sweep_if_due_frame B (pushed request obj w)) as (Hobj & _).
  destruct (sweep_if_due B _) as [w' [[]|e]]; [|done]. simpl in *.
  apply respond_closed_removes; [done|]. by rewrite Hobj.
Qed.

Lemma _webio_view_new coro_func B (request : Request) (w : World) :
  truthy (args_test request) = false →
  truthy (header_webio_session_id request) = false →
  _webio_view coro_func B request w
  = serve B request true (draw (drawn w) 24) (next_object w)
      (after (start_new_session coro_func) w).
Proof. intros Ht Hh. by rewrite _webio_view_eq, Ht, Hh. Qed.

(** *** Order of the timestamps *)

Lemma StronglySorted_sublist_le (l l' : list Z) :
  l' `sublist_of` l → StronglySorted Z.le l → StronglySorted Z.le l'.
Proof.
  induction 1 as [|x l1 l2 Hsub IH|x l1 l2 Hsub IH]; intros Hs.
  - constructor.
  - apply StronglySorted_inv in Hs as [Hs Hall]. constructor; [by apply IH|].
    rewrite Forall_forall in *. intros y Hy. apply Hall.
    by eapply elem_of_sublist.
  - apply StronglySorted_inv in Hs as [Hs _]. by apply IH.
Qed.

Lemma ordered_shrinks (w w' : World) :
  monotone_clock → ordered w → shrinks w w' → ordered w'.
Proof.
  intros Hclock (Hwf & Hord & Hpast) [Hsub Hticks]. split_and!.
  - eapply sublist_NoDup; [exact Hwf|]. by apply fmap_sublist.
  - eapply StronglySorted_sublist_le; [|exact Hord]. by apply fmap_sublist.
  - unfold in_the_past in *. rewrite Forall_forall in *. intros ts Hts.
    etrans; [apply Hpast|by apply Hclock].
    eapply elem_of_sublist; [exact Hts|]. by apply fmap_sublist.
Qed.

Lemma shrinks_refl (w : World) : shrinks w w.
Proof. by split. Qed.

Lemma shrinks_trans (w1 w2 w3 : World) :
  shrinks w1 w2 → shrinks w2 w3 → shrinks w1 w3.
Proof. intros [? ?] [? ?]. split; [by etrans|lia]. Qed.

Lemma shrinks_frame (w w' : World) :
  _webio_expire w' = _webio_expire w → ticks w' = ticks w → shrinks w w'.
Proof. intros He Ht. split; [by rewrite He|lia]. Qed.

Lemma _remove_webio_session_shrinks sid (w : World) :
  shrinks w (_remove_webio_session sid w).1.
Proof.
  rewrite _remove_webio_session_eq.
  destruct (_webio_sessions w !! sid); [|by apply shrinks_frame].
  cbv zeta. unfold OrderedDict.delitem.
  destruct (OrderedDict.contains sid _); [|by apply shrinks_frame].
  split; simpl; [apply remove_sublist|done].
Qed.

Lemma respond_shrinks (set_header : bool) sid obj (w : World) :
  shrinks w (respond set_header sid obj w).1.
Proof.
  rewrite respond_eq. cbv zeta. destruct (closed _).
  - pose proof (_remove_webio_session_shrinks sid (pulled obj w)) as Hs.
    destruct (_remove_webio_session sid _) as [w' [[]|e]];
      (eapply shrinks_trans; [|exact Hs]); by apply shrinks_frame.
  - destruct set_header; by apply shrinks_frame.
Qed.

Lemma sweep_loop_shrinks B (w : World) :
  OrderedDict.wf (_webio_expire w) → shrinks w (sweep_loop B w).1.
Proof.
  intros Hwf. destruct (sweep_loop_suffix B w Hwf) as [gone Hgone].
  destruct (sweep_loop_frame B w) as (_ & _ & _ & _ & Ht & _).
  split; [|done]. rewrite Hgone at 1. by apply sublist_inserts_l.
Qed.

Lemma sweep_if_due_shrinks B (w : World) :
  OrderedDict.wf (_webio_expire w) → shrinks w (sweep_if_due B w).1.
Proof.
  intros Hwf. destruct (sweep_if_due_suffix B w Hwf) as [gone Hgone].
  destruct (sweep_if_due_frame B w) as (_ & _ & _ & Ht & _).
  split; [|lia]. rewrite Hgone at 1. by apply sublist_inserts_l.
Qed.

Lemma serve_shrinks B (request : Request) (set_header : bool) sid obj (w : World) :
  OrderedDict.wf (_webio_expire w) →
  shrinks w (serve B request set_header sid obj w).1.
Proof.
  intros Hwf. rewrite serve_eq.
  assert (shrinks w (pushed request obj w)) as H1.
  { apply shrinks_frame; unfold pushed; by destruct (method request). }
  assert (shrinks (pushed request obj w) (sweep_if_due B (pushed request obj w)).1)
    as H2.
  { apply sweep_if_due_shrinks. unfold pushed. by destruct (method request). }
  pose proof (shrinks_trans _ _ _ H1 H2) as H3.
  destruct (sweep_if_due B _) as [w' [[]|e]]; [|done]. simpl in *.
  eapply shrinks_trans; [exact H3|]. apply respond_shrinks.
Qed.

(** the creation of a session puts the current time at the most recently
    active end *)
Lemma start_new_session_ordered coro_func (w : World) :
  monotone_clock → ordered w → ordered (start_new_session coro_func w).1.
Proof.
  intros Hclock (Hwf & Hord & Hpast). rewrite start_new_session_eq.
  unfold ordered, time_ordered, in_the_past in *. simpl.
  pose proof (remove_sublist (draw (drawn w) 24) (_webio_expire w)) as Hsub.
  apply (fmap_sublist snd) in Hsub.
  unfold LRUDict.setitem. rewrite fmap_app. simpl.
  rewrite Forall_forall in Hpast.
  split_and!.
  - by apply wf_setitem.
  - apply StronglySorted_app. split_and!.
    + intros t1 t2 H1 ->%list_elem_of_singleton. apply Hpast.
      by eapply elem_of_sublist.
    + by eapply StronglySorted_sublist_le.
    + repeat constructor.
  - apply Forall_app. split.
    + rewrite Forall_forall. intros ts Hts. etrans.
      * apply Hpast. by eapply elem_of_sublist.
      * apply Hclock. lia.
    + constructor; [|constructor]. apply Hclock. lia.
Qed.

Lemma _webio_view_ordered coro_func B (request : Request) (w : World) :
  monotone_clock → ordered w → ordered (_webio_view coro_func B request w).1.
Proof.
  intros Hclock Hw. rewrite _webio_view_eq.
  destruct (truthy (args_test request)); [done|].
  destruct (negb _).
  - pose proof (start_new_session_ordered coro_func w Hclock Hw) as Hw1.
    eapply ordered_shrinks; [done|exact Hw1|].
    apply serve_shrinks, Hw1.
  - destruct (_ !! _); [|done].
    eapply ordered_shrinks; [done|exact Hw|]. apply serve_shrinks, Hw.
Qed.

Lemma run_ordered coro_func B (requests : list Request) (w : World) :
  monotone_clock → ordered w → ordered (run coro_func B requests w).
Proof.
  intros Hclock. revert w.
  induction requests as [|request rest IH]; intros w Hw; [done|].
  simpl. by apply IH, _webio_view_ordered.
Qed.

(** Whatever requests have been served since the module was loaded, the
    timestamps of the tracker are ordered, when the clock never goes
    back. *)
Lemma reachable_ordered coro_func B (requests : list Request) s0 :
  monotone_clock → ordered (run coro_func B requests (initial_world s0)).
Proof.
  intros Hclock. apply run_ordered; [done|].
  split_and!; simpl; constructor.
Qed.

(** *** What a served request leaves behind *)

(** Whatever the registry holds, the sweep takes records off the front of
    the tracker, all of them expired; when it returns it has taken the whole
    expired prefix, and the record now in front, if any, is fresh. *)
Lemma sweep_loop_prefix B (w : World) :
  OrderedDict.wf (_webio_expire w) →
  ∃ gone,
    _webio_expire w = gone ++ _webio_expire (sweep_loop B w).1 ∧
    gone `prefix_of` expired_prefix B (ticks w) (_webio_expire w) ∧
    ((sweep_loop B w).2 = Return tt →
     gone = expired_prefix B (ticks w) (_webio_expire w) ∧
     match _webio_expire (sweep_loop B w).1 with
     | [] => True
     | (_, ts) :: _ => (clock env (ticks w + length gone) - ts < B)%Z
     end).
Proof.
  revert w. apply (sweep_loop_cases B (fun w r =>
    OrderedDict.wf (_webio_expire w) →
    ∃ gone,
      _webio_expire w = gone ++ _webio_expire r.1 ∧
      gone `prefix_of` expired_prefix B (ticks w) (_webio_expire w) ∧
      (r.2 = Return tt →
       gone = expired_prefix B (ticks w) (_webio_expire w) ∧
       match _webio_expire r.1 with
       | [] => True
       | (_, ts) :: _ => (clock env (ticks w + length gone) - ts < B)%Z
       end))).
  - intros w0 Hd _. exists []. simpl. rewrite Hd. simpl.
    split_and!; [done|done|]. by intros _.
  - intros w0 sid ts rest Hd Hage Hwf. rewrite (put_back _ _ _ _ Hwf Hd).
    exists []. simpl. rewrite Hd. simpl. unfold reading in Hage.
    rewrite decide_True by done. split_and!; [done|done|]. intros _.
    split; [done|]. simpl. by rewrite Nat.add_0_r.
  - intros w0 sid ts rest Hd Hage _ _. exists [(sid, ts)]. simpl.
    rewrite Hd. simpl. unfold reading in Hage. rewrite decide_False by done.
    split_and!; [done| |done]. by apply prefix_cons, prefix_nil.
  - intros w0 sid ts rest obj Hd Hage _ w1 IH Hwf. subst w1.
    rewrite Hd in Hwf. unfold OrderedDict.wf in Hwf. simpl in Hwf.
    apply NoDup_cons in Hwf as [_ Hrest].
    destruct (IH Hrest) as (gone & Hsplit & Hpre & Hret). simpl in *.
    exists ((sid, ts) :: gone). rewrite Hd. simpl. unfold reading in Hage.
    rewrite decide_False by done. split_and!.
    + by f_equal.
    + by apply prefix_cons.
    + intros Hr. destruct (Hret Hr) as [-> Hhead]. split; [done|].
      cbn [length]. by rewrite Nat.add_succ_r.
Qed.

Lemma sweep_if_due_spec B (w : World) :
  consistent w →
  (sweep_if_due B w).2 = Return tt ∧
  _webio_expire w = swept B w ++ _webio_expire (sweep_if_due B w).1 ∧
  (∀ k, _webio_sessions (sweep_if_due B w).1 !! k
        = if decide (k ∈ OrderedDict.keys (swept B w)) then None
          else _webio_sessions w !! k) ∧
  trace (sweep_if_due B w).1
  = trace w ++ sweep_events w (OrderedDict.keys (swept B w)) ∧
  _last_check_session_expire_ts (sweep_if_due B w).1
  = (if decide (sweep_due w)
     then clock env (S (ticks w) + length (swept B w)
                     + if _webio_expire (sweep_if_due B w).1 is [] then 0 else 1)
     else _last_check_session_expire_ts w).
Proof.
  intros [Hwf Hp]. rewrite sweep_if_due_eq.
  unfold swept, sweep_events, sweep_due.
  destruct (decide (reading w - _last_check_session_expire_ts w
                    > REMOVE_EXPIRED_SESSIONS_INTERVAL)%Z) as [Hdue|Hdue].
  - destruct (sweep_loop_spec B (record EvSweep (tick w)))
      as (Hret & Hsplit & Hlook & Hticks & Htr & _).
    { done. }
    { intros k Hk. by apply Hp. }
    destruct (sweep_loop B (record EvSweep (tick w))) as [w' [[]|e]]; [|done].
    simpl in *. split_and!; try done.
    + by rewrite Htr, <-app_assoc.
    + unfold reading. simpl. by rewrite Hticks.
  - simpl. split_and!; try done. by rewrite app_nil_r.
Qed.

Lemma respond_spec (set_header : bool) sid obj (w : World) :
  consistent w →
  (respond set_header sid obj w).2
  = (if closed (get_task_messages (objects w obj)).2
     then match _webio_sessions w !! sid with
          | Some _ => Return (jsonify (get_task_messages (objects w obj)).1)
          | None => Raise (KeyError sid)
          end
     else Return (mkResponse (Json (get_task_messages (objects w obj)).1)
                    (if set_header then Some sid else None))) ∧
  _webio_expire (respond set_header sid obj w).1
  = (if closed (get_task_messages (objects w obj)).2
     then OrderedDict.remove sid (_webio_expire w) else _webio_expire w) ∧
  (∀ k, _webio_sessions (respond set_header sid obj w).1 !! k
        = if closed (get_task_messages (objects w obj)).2
          then (if decide (k = sid) then None else _webio_sessions w !! k)
          else _webio_sessions w !! k) ∧
  objects (respond set_header sid obj w).1 obj
  = (get_task_messages (objects w obj)).2 ∧
  _last_check_session_expire_ts (respond set_header sid obj w).1
  = _last_check_session_expire_ts w.
Proof.
  intros [Hwf Hp]. rewrite respond_eq. cbv zeta.
  destruct (closed _) eqn:Hc.
  - rewrite _remove_webio_session_eq.
    change (_webio_sessions (pulled obj w)) with (_webio_sessions w).
    change (_webio_expire (pulled obj w)) with (_webio_expire w).
    destruct (_webio_sessions w !! sid) as [o|] eqn:Hs; cbv zeta.
    + unfold OrderedDict.delitem.
      destruct (OrderedDict.contains sid (_webio_expire w)) eqn:Hin.
      * simpl. split_and!; [done|done| |by rewrite fn_lookup_insert|done].
        intros k. case_decide as Hk.
        -- subst. apply lookup_delete_eq.
        -- by apply lookup_delete_ne.
      * apply contains_false in Hin. exfalso. apply Hin, Hp. by rewrite Hs.
    + simpl. split_and!; [done| | |by rewrite fn_lookup_insert|done].
      * symmetry. apply remove_fresh. intros Hin. apply Hp in Hin as [? ?].
        congruence.
      * intros k. case_decide; [by subst|done].
  - destruct set_header; simpl;
      (split_and!; [done|done|done|by rewrite fn_lookup_insert|done]).
Qed.

Lemma serve_spec B (request : Request) (set_header : bool) sid obj (w : World) :
  consistent w →
  _webio_sessions w !! sid = Some obj →
  (serve B request set_header sid obj w).2
  = (if closed (get_task_messages (objects (pushed request obj w) obj)).2
     then (if decide (sid ∈ OrderedDict.keys (swept B w))
           then Raise (KeyError sid)
           else Return (jsonify (get_task_messages
                                   (objects (pushed request obj w) obj)).1))
     else Return (mkResponse
                    (Json (get_task_messages
                             (objects (pushed request obj w) obj)).1)
                    (if set_header then Some sid else None))) ∧
  _webio_expire (serve B request set_header sid obj w).1
  = (if closed (get_task_messages (objects (pushed request obj w) obj)).2
     then OrderedDict.remove sid
            (drop (length (swept B w)) (_webio_expire w))
     else drop (length (swept B w)) (_webio_expire w)) ∧
  (∀ k, _webio_sessions (serve B request set_header sid obj w).1 !! k
        = if decide (k ∈ OrderedDict.keys (swept B w)) then None
          else if closed (get_task_messages
                            (objects (pushed request obj w) obj)).2
               then (if decide (k = sid) then None else _webio_sessions w !! k)
               else _webio_sessions w !! k) ∧
  _last_check_session_expire_ts (serve B request set_header sid obj w).1
  = (if decide (sweep_due w)
     then clock env (S (ticks w) + length (swept B w)
                     + if drop (length (swept B w)) (_webio_expire w) is []
                       then 0 else 1)
     else _last_check_session_expire_ts w) ∧
  objects (serve B request set_header sid obj w).1 obj
  = (get_task_messages (objects (pushed request obj w) obj)).2.
Proof.
  intros Hw Hreg. rewrite serve_eq.
  pose proof (pushed_consistent request obj w Hw) as Hpw.
  assert (_webio_expire (pushed request obj w) = _webio_expire w ∧
          _webio_sessions (pushed request obj w) = _webio_sessions w ∧
          _last_check_session_expire_ts (pushed request obj w)
          = _last_check_session_expire_ts w ∧
          ticks (pushed request obj w) = ticks w ∧
          swept B (pushed request obj w) = swept B w ∧
          (sweep_due (pushed request obj w) ↔ sweep_due w))
    as (Hpe & Hps & Hpl & Hpt & Hpsw & Hpd).
  { unfold swept, sweep_due, reading, pushed.
    by destruct (method request). }
  destruct (sweep_if_due_spec B _ Hpw) as (Hret & Hsplit & Hlook & _ & Hlast).
  destruct (sweep_if_due_consistent B _ Hpw) as [_ Hw'].
  destruct (sweep_if_due_frame B (pushed request obj w)) as (Hobj & _).
  destruct (sweep_if_due B (pushed request obj w)) as [w' [[]|e]]; [|done].
  simpl in *. rewrite Hpsw, Hpe in *.
  assert (_webio_expire w' = drop (length (swept B w)) (_webio_expire w))
    as Hkept.
  { rewrite Hsplit at 1. by rewrite drop_app_length. }
  destruct (respond_spec set_header sid obj w' Hw')
    as (Hout & Hexp & Hs & Ho & Hl).
  rewrite Hobj in *. rewrite Hkept in *.
  assert (respond set_header sid obj w' = respond set_header sid obj w') as _
    by done.
  split_and!.
  - rewrite Hout. destruct (closed _); [|done].
    rewrite (Hlook sid), Hps, Hreg.
    by destruct (decide (sid ∈ OrderedDict.keys (swept B w))).
  - done.
  - intros k. rewrite Hs, !Hlook, Hps.
    destruct (closed _), (decide (k ∈ OrderedDict.keys (swept B w)));
      try done; by destruct (decide (k = sid)).
  - rewrite Hl, Hlast.
    destruct (decide (sweep_due (pushed request obj w))) as [Hd|Hd],
             (decide (sweep_due w)) as [Hd'|Hd'].
    + by rewrite Hpt.
    + exfalso. by apply Hd', Hpd.
    + exfalso. by apply Hd, Hpd.
    + exact Hpl.
  - done.
Qed.

Lemma serve_trace_spec B (request : Request) (set_header : bool) sid obj
    (w : World) :
  consistent w →
  trace (serve B request set_header sid obj w).1
  = trace w
    ++ push_events request obj
    ++ sweep_events w (OrderedDict.keys (swept B w))
    ++ [EvPull obj;
        EvClosed obj
          (closed (get_task_messages (objects (pushed request obj w) obj)).2)]
    ++ final_events
         (closed (get_task_messages (objects (pushed request obj w) obj)).2)
         set_header sid.
Proof.
  intros Hw. rewrite serve_eq.
  pose proof (pushed_consistent request obj w Hw) as Hpw.
  destruct (sweep_if_due_spec B _ Hpw) as (Hret & _ & _ & Htr & _).
  destruct (sweep_if_due_frame B (pushed request obj w)) as (Hobj & _).
  destruct (sweep_if_due B (pushed request obj w)) as [w' [[]|e]]; [|done].
  simpl in *. rewrite respond_trace, Hobj, Htr.
  assert (trace (pushed request obj w) = trace w ++ push_events request obj)
    as ->.
  { unfold pushed, push_events. destruct (method request); simpl;
      by rewrite ?app_nil_r. }
  assert (sweep_events (pushed request obj w)
            (OrderedDict.keys (swept B (pushed request obj w)))
          = sweep_events w (OrderedDict.keys (swept B w))) as ->.
  { unfold sweep_events, swept, sweep_due, pushed, reading.
    by destruct (method request). }
  by rewrite <-!app_assoc.
Qed.

(** ** The claims *)

(** C4. Expiry sweep, monotonicity and early stop.  The tracker holds
    sessions with last-active times [t1 < t2 < ... < tn], each of them
    registered, and the sweep runs with idle budget [B] at time [T]
    (every reading of the clock gives [T]).  Then the sweep returns; the
    tracker splits as [gone ++ kept] where [gone] holds exactly the
    entries with [T - ti >= B] and [kept] those with [T - ti < B]; the
    tracker is left as [kept], the registry loses exactly the identifiers
    of [gone], and the clock was read once for each entry of [gone] and
    once more for the first entry of [kept], where the scan stops. *)
Theorem sweep_removes_expired_prefix B T (w : World) :
  (∀ n, clock env n = T) →
  OrderedDict.wf (_webio_expire w) →
  StronglySorted Z.lt (_webio_expire w).*2 →
  (∀ sid, sid ∈ OrderedDict.keys (_webio_expire w)
          → is_Some (_webio_sessions w !! sid)) →
  ∃ gone kept,
    _webio_expire w = gone ++ kept ∧
    Forall (fun item => (T - item.2 >= B)%Z) gone ∧
    Forall (fun item => (T - item.2 < B)%Z) kept ∧
    (_remove_expired_sessions B w).2 = Return tt ∧
    _webio_expire (after (_remove_expired_sessions B) w) = kept ∧
    (∀ sid, _webio_sessions (after (_remove_expired_sessions B) w) !! sid
            = if decide (sid ∈ OrderedDict.keys gone) then None
              else _webio_sessions w !! sid) ∧
    ticks (after (_remove_expired_sessions B) w)
    = (ticks w + length gone + (if kept is [] then 0 else 1))%nat.
Proof.
  intros Hclock Hwf Hsorted Hreg.
  unfold after. rewrite _remove_expired_sessions_eq.
  destruct (sweep_loop_spec B (record EvSweep w) Hwf Hreg)
    as (Hret & Hsplit & Hlook & Hticks & _ & Hhead).
  simpl in *.
  exists (expired_prefix B (ticks w) (_webio_expire w)),
         (_webio_expire (sweep_loop B (record EvSweep w)).1).
  split_and!; try done.
  - by apply expired_prefix_expired.
  - apply fresh_suffix.
    + rewrite Hsplit, fmap_app in Hsorted.
      by apply StronglySorted_app_1_r in Hsorted.
    + destruct (_webio_expire (sweep_loop B (record EvSweep w)).1)
        as [|[k ts] d]; [done|].
      by rewrite Hclock in Hhead.
Qed.

(** C1. Pairing invariant.  In a state where the tracker holds each
    identifier once and an expiry record exists exactly for the registered
    identifiers, the same is true after each step that touches the two
    dictionaries (the creation of a session, the expiry sweep, the removal
    of a session) and after the whole handling of a request, whether it
    ends with a response or with an exception. *)
Theorem pairing_invariant coro_func B (request : Request) sid (w : World) :
  OrderedDict.wf (_webio_expire w) →
  paired w →
  paired (after (start_new_session coro_func) w) ∧
  paired (after (_remove_expired_sessions B) w) ∧
  paired (after (_remove_webio_session sid) w) ∧
  paired (after (_webio_view coro_func B request) w).
Proof.
  intros Hwf Hp. assert (consistent w) as Hw by done.
  unfold after. split_and!.
  - by apply start_new_session_consistent.
  - rewrite _remove_expired_sessions_eq.
    by apply (sweep_loop_paired B (record EvSweep w)).
  - by apply _remove_webio_session_consistent.
  - by apply _webio_view_consistent.
Qed.

(** C3. Order and effect of the side effects.  A request that is not
    answered early (no truthy [test] parameter; either no identifier, and
    then [sid], [obj] and [w1] are the identifier, the object and the state
    of the session just started, or an identifier [sid] registered for the
    object [obj], and then [w1] is the state as found), served in a
    consistent state, makes its calls in this order: the push of the
    payload, on a POST only; the sweep with its deletions, only when the
    interval has elapsed; the pull; the closed check; then the removal of a
    closed session, or else the header of a new one.  Each has its effect:
    the pull is made on the object as the push left it and leaves it as the
    pull returns it; the sweep removes the records of [swept] from the
    tracker and their identifiers from the registry, and the last-sweep
    timestamp takes the reading made after it; the removal takes a closed
    session out of both dictionaries; the response has the pulled messages
    as its body and carries the identifier exactly when the session is new
    and not closed.  The one request that gets no response is that of a
    closed session the sweep has just evicted: its removal raises
    [KeyError].  A request that is not a POST makes no push. *)
Theorem side_effects_in_order coro_func B (request : Request)
    (set_header : bool) sid obj (w w1 : World) :
  consistent w →
  truthy (args_test request) = false →
  (truthy (header_webio_session_id request) = false ∧
   start_new_session coro_func w = (w1, Return (sid, obj)) ∧
   set_header = true)
  ∨ (header_webio_session_id request = Some sid ∧ sid ≠ EmptyString ∧
     _webio_sessions w !! sid = Some obj ∧ w1 = w ∧ set_header = false) →
  trace (after (_webio_view coro_func B request) w)
  = trace w
    ++ push_events request obj
    ++ sweep_events w1 (OrderedDict.keys (swept B w1))
    ++ [EvPull obj;
        EvClosed obj
          (closed (get_task_messages (objects (pushed request obj w1) obj)).2)]
    ++ final_events
         (closed (get_task_messages (objects (pushed request obj w1) obj)).2)
         set_header sid ∧
  (method request = POST →
   objects (pushed request obj w1) obj
   = send_client_event (json request) (objects w1 obj)) ∧
  (method request ≠ POST →
   ∀ o event, EvPush o event ∉ drop (length (trace w))
                (trace (after (_webio_view coro_func B request) w))) ∧
  (∀ response,
     (_webio_view coro_func B request w).2 = Return response →
     body response
     = Json (get_task_messages (objects (pushed request obj w1) obj)).1) ∧
  (_webio_view coro_func B request w).2
  = (if closed (get_task_messages (objects (pushed request obj w1) obj)).2
     then (if decide (sid ∈ OrderedDict.keys (swept B w1))
           then Raise (KeyError sid)
           else Return (jsonify (get_task_messages
                                   (objects (pushed request obj w1) obj)).1))
     else Return (mkResponse
                    (Json (get_task_messages
                             (objects (pushed request obj w1) obj)).1)
                    (if set_header then Some sid else None))) ∧
  objects (after (_webio_view coro_func B request) w) obj
  = (get_task_messages (objects (pushed request obj w1) obj)).2 ∧
  _webio_expire (after (_webio_view coro_func B request) w)
  = (if closed (get_task_messages (objects (pushed request obj w1) obj)).2
     then OrderedDict.remove sid
            (drop (length (swept B w1)) (_webio_expire w1))
     else drop (length (swept B w1)) (_webio_expire w1)) ∧
  (∀ k, _webio_sessions (after (_webio_view coro_func B request) w) !! k
        = if decide (k ∈ OrderedDict.keys (swept B w1)) then None
          else if closed (get_task_messages
                            (objects (pushed request obj w1) obj)).2
               then (if decide (k = sid) then None else _webio_sessions w1 !! k)
               else _webio_sessions w1 !! k) ∧
  _last_check_session_expire_ts (after (_webio_view coro_func B request) w)
  = (if decide (sweep_due w1)
     then clock env (S (ticks w1) + length (swept B w1)
                     + if drop (length (swept B w1)) (_webio_expire w1) is []
                       then 0 else 1)
     else _last_check_session_expire_ts w1).
Proof.
  intros Hw Htest Hcase. unfold after. rewrite _webio_view_eq, Htest.
  assert (trace w1 = trace w ∧ consistent w1 ∧
          _webio_sessions w1 !! sid = Some obj ∧
          (if negb (truthy (header_webio_session_id request))
           then serve B request true (draw (drawn w) 24) (next_object w)
                  (start_new_session coro_func w).1
           else match _webio_sessions w
                      !! (default EmptyString (header_webio_session_id request))
                with
                | None => (w, Return (jsonify [close_session_message]))
                | Some obj =>
                    serve B request false
                      (default EmptyString (header_webio_session_id request))
                      obj w
                end)
          = serve B request set_header sid obj w1) as (Htr & Hw1 & Hreg & ->).
  { destruct Hcase as [(Hh & Hstart & ->)|(Hh & Hsid & Hs & -> & ->)].
    - rewrite Hh. cbn [negb].
      pose proof (start_new_session_consistent coro_func w Hw) as Hc.
      rewrite Hstart in Hc |- *. cbn [fst] in *.
      rewrite start_new_session_eq in Hstart.
      injection Hstart as Hw1 <- <-.
      split_and!; [by rewrite <-Hw1|done| |done].
      rewrite <-Hw1. simpl. by rewrite lookup_insert_eq.
    - rewrite Hh. cbn [truthy default]. apply String.eqb_neq in Hsid.
      rewrite Hsid. cbn [negb id]. by rewrite Hs. }
  pose proof (serve_trace_spec B request set_header sid obj w1 Hw1) as Hev.
  destruct (serve_spec B request set_header sid obj w1 Hw1 Hreg)
    as (Hout & Hexp & Hsess & Hlast & Hobj).
  split_and!; [|..|done|done|done|done|done].
  - by rewrite Hev, Htr.
  - intros Hm. unfold pushed. rewrite Hm. simpl. by rewrite fn_lookup_insert.
  - intros Hm o event. rewrite Hev, Htr, drop_app_length.
    unfold push_events, sweep_events, final_events.
    destruct (method request); [|done|]; simpl;
      repeat case_decide; repeat case_match;
      rewrite ?elem_of_app, ?elem_of_cons, ?list_elem_of_fmap, ?elem_of_nil;
      naive_solver.
  - apply serve_response.
Qed.

(** C7, amended.  A request without identifier (and without a truthy
    [test] parameter) draws an identifier of 24 characters from the random
    source, without checking it against the registry; makes a new session
    object bound to the entry point, registers it under that identifier
    and puts the expiry record of the identifier, with the current time,
    at the most recently active end of the tracker; and goes on with lines
    98-113.  A response, when there is one, carries the identifier in its
    header unless the new session reports closed at its first pull, and
    then it carries no identifier. *)
Theorem new_session_started coro_func B (request : Request) (w : World) :
  truthy (args_test request) = false →
  truthy (header_webio_session_id request) = false →
  String.length (draw (drawn w) 24) = 24 ∧
  start_new_session coro_func w
  = (after (start_new_session coro_func) w,
     Return (draw (drawn w) 24, next_object w)) ∧
  objects (after (start_new_session coro_func) w) (next_object w)
  = new_session coro_func ∧
  _webio_sessions (after (start_new_session coro_func) w)
    !! (draw (drawn w) 24) = Some (next_object w) ∧
  last (_webio_expire (after (start_new_session coro_func) w))
  = Some (draw (drawn w) 24, reading w) ∧
  _webio_view coro_func B request w
  = serve B request true (draw (drawn w) 24) (next_object w)
      (after (start_new_session coro_func) w) ∧
  ∀ response,
    (_webio_view coro_func B request w).2 = Return response →
    response_webio_session_id response
    = if closed (first_pull coro_func request w).2 then None
      else Some (draw (drawn w) 24).
Proof.
  intros Ht Hh. split_and!.
  - apply draw_length.
  - by rewrite start_new_session_eq.
  - unfold after. rewrite start_new_session_eq. simpl.
    by rewrite fn_lookup_insert.
  - unfold after. rewrite start_new_session_eq. simpl.
    by rewrite lookup_insert_eq.
  - unfold after. rewrite start_new_session_eq. simpl.
    unfold LRUDict.setitem. by rewrite last_snoc.
  - by apply _webio_view_new.
  - intros response. rewrite (_webio_view_new _ _ _ _ Ht Hh).
    intros Hr. by apply serve_response in Hr as [_ ->].
Qed.

(** C10, amended.  A session started by the request, in a consistent
    state.  When it reports closed at its first pull, its identifier is in
    neither dictionary once the request is over and a response, when
    there is one, carries no identifier; there is a response, the pulled
    messages, unless the sweep of the same request had already evicted
    the new session, and then the removal raises [KeyError].  A response
    that carries an identifier carries the one of the new session, and
    that session did not report closed at its first pull.  When the new
    session does not report closed at its first pull, the response
    carries its identifier, whether the session is still in the
    dictionaries or not: the sweep of the same request removes its
    records from the tracker and their identifiers from the registry,
    that of the new session among them when it finds it expired. *)
Theorem closed_new_session_gets_no_header coro_func B (request : Request)
    (w : World) :
  consistent w →
  truthy (args_test request) = false →
  truthy (header_webio_session_id request) = false →
  (closed (first_pull coro_func request w).2 = true →
   (draw (drawn w) 24
    ∉ OrderedDict.keys
        (_webio_expire (after (_webio_view coro_func B request) w))) ∧
   _webio_sessions (after (_webio_view coro_func B request) w)
     !! (draw (drawn w) 24) = None ∧
   (∀ response,
      (_webio_view coro_func B request w).2 = Return response →
      response_webio_session_id response = None) ∧
   (_webio_view coro_func B request w).2
   = (if decide (draw (drawn w) 24
                 ∈ OrderedDict.keys
                     (swept B (after (start_new_session coro_func) w)))
      then Raise (KeyError (draw (drawn w) 24))
      else Return (jsonify (first_pull coro_func request w).1))) ∧
  (∀ response sid,
     (_webio_view coro_func B request w).2 = Return response →
     response_webio_session_id response = Some sid →
     sid = draw (drawn w) 24 ∧
     closed (first_pull coro_func request w).2 = false) ∧
  (closed (first_pull coro_func request w).2 = false →
   (_webio_view coro_func B request w).2
   = Return (mkResponse (Json (first_pull coro_func request w).1)
               (Some (draw (drawn w) 24))) ∧
   _webio_sessions (after (_webio_view coro_func B request) w)
     !! (draw (drawn w) 24)
   = (if decide (draw (drawn w) 24
                 ∈ OrderedDict.keys
                     (swept B (after (start_new_session coro_func) w)))
      then None else Some (next_object w)) ∧
   _webio_expire (after (_webio_view coro_func B request) w)
   = drop (length (swept B (after (start_new_session coro_func) w)))
       (_webio_expire (after (start_new_session coro_func) w))).
Proof.
  intros Hw Ht Hh. unfold first_pull, after.
  rewrite (_webio_view_new _ _ _ _ Ht Hh). unfold after.
  pose proof (start_new_session_consistent coro_func w Hw) as Hw1.
  assert (_webio_sessions (start_new_session coro_func w).1
            !! draw (drawn w) 24 = Some (next_object w)) as Hreg.
  { rewrite start_new_session_eq. simpl. by rewrite lookup_insert_eq. }
  destruct (serve_spec B request true (draw (drawn w) 24) (next_object w)
              _ Hw1 Hreg) as (Hout & Hexp & Hsess & _ & _).
  split_and!.
  - intros Hc.
    destruct (serve_closed_removes B request true (draw (drawn w) 24)
                (next_object w) _ Hw1 Hc) as [Hk Hs].
    split_and!; [done..| |].
    + intros response Hr. apply serve_response in Hr as [_ ->].
      by rewrite Hc.
    + by rewrite Hout, Hc.
  - intros response sid Hr Hsid. apply serve_response in Hr as [_ Hr].
    rewrite Hsid in Hr.
    destruct (closed _); [done|]. split; [congruence|done].
  - intros Hc. rewrite Hc in Hout, Hexp, Hsess. split_and!; [done| |done].
    rewrite Hsess. case_decide; [done|]. exact Hreg.
Qed.

(** C9, amended.  Order of the timestamps.  The readings of the clock
    never go back; the tracker holds each identifier once, its timestamps
    do not decrease from the least to the most recently active end, and
    none is later than the clock.  Then the creation of a session puts its
    record, with the current time, at the most recently active end, behind
    the other records in their order.  The sweep takes records from the
    least recently active end only, each of them expired, and leaves the
    others as they were and in their order; when it returns it has taken
    exactly the records of [expired_prefix], and the record that stopped
    it, the first it found fresh, is first in the tracker again.  After
    each of these steps, after a removal, and after the whole handling of
    a request the timestamps are ordered as before (and still none is
    later than the clock). *)
Theorem timestamps_stay_ordered coro_func B (request : Request) sid (w : World) :
  monotone_clock →
  OrderedDict.wf (_webio_expire w) →
  time_ordered (_webio_expire w) →
  in_the_past w →
  _webio_expire (after (start_new_session coro_func) w)
  = OrderedDict.remove (draw (drawn w) 24) (_webio_expire w)
    ++ [(draw (drawn w) 24, reading w)] ∧
  time_ordered (_webio_expire (after (start_new_session coro_func) w)) ∧
  (∃ gone,
     _webio_expire w
     = gone ++ _webio_expire (after (_remove_expired_sessions B) w) ∧
     gone `prefix_of` expired_prefix B (ticks w) (_webio_expire w) ∧
     ((_remove_expired_sessions B w).2 = Return tt →
      gone = expired_prefix B (ticks w) (_webio_expire w) ∧
      match _webio_expire (after (_remove_expired_sessions B) w) with
      | [] => True
      | (_, ts) :: _ => (clock env (ticks w + length gone) - ts < B)%Z
      end)) ∧
  time_ordered (_webio_expire (after (_remove_expired_sessions B) w)) ∧
  time_ordered (_webio_expire (after (_remove_webio_session sid) w)) ∧
  time_ordered (_webio_expire (after (_webio_view coro_func B request) w)) ∧
  in_the_past (after (_webio_view coro_func B request) w).
Proof.
  intros Hclock Hwf Hord Hpast. assert (ordered w) as Hw by done.
  unfold after. split_and!.
  - by rewrite start_new_session_eq.
  - by apply start_new_session_ordered.
  - rewrite _remove_expired_sessions_eq.
    apply (sweep_loop_prefix B (record EvSweep w) Hwf).
  - rewrite _remove_expired_sessions_eq.
    eapply (ordered_shrinks (record EvSweep w)); [done|done|].
    by apply sweep_loop_shrinks.
  - eapply ordered_shrinks; [done|exact Hw|].
    apply _remove_webio_session_shrinks.
  - by apply _webio_view_ordered.
  - by apply _webio_view_ordered.
Qed.

(** C8. A request with a truthy [test] query parameter is answered with
    the literal [ok] before anything else: the state, whatever it is, is
    left as it was (no session created, no call on any session, no
    reading of the clock). *)
Theorem probe_returns_ok coro_func B (request : Request) (w : World) :
  truthy (args_test request) = true →
  _webio_view coro_func B request w = (w, Return (mkResponse (Text "ok") None)).
Proof. intros Htest. unfold _webio_view. by rewrite Htest. Qed.

(** C2, amended.  A request without a truthy [test] parameter that
    presents an identifier absent from the registry is answered with the
    single message [close_session], and the state is left as it was: no
    push, no sweep, no pull, no session created or changed. *)
Theorem unknown_session_closes coro_func B (request : Request) (w : World) sid :
  truthy (args_test request) = false →
  header_webio_session_id request = Some sid →
  sid ≠ EmptyString →
  _webio_sessions w !! sid = None →
  _webio_view coro_func B request w
  = (w, Return (jsonify [close_session_message])).
Proof.
  intros Htest Hheader Hsid Hnone. unfold _webio_view.
  rewrite Htest, Hheader. simpl.
  apply String.eqb_neq in Hsid. rewrite Hsid. simpl.
  unfold mbind, M_bind, bind, sessions_get. by rewrite Hnone.
Qed.

(** C5, amended.  Right after a removal that succeeded, removing the same
    identifier again leaves the registry and the tracker as the first
    removal left them, and raises [KeyError]: the second call is not a
    silent no-op. *)
Theorem second_removal_raises sid (w w1 : World) :
  _remove_webio_session sid w = (w1, Return tt) →
  (_remove_webio_session sid w1).2 = Raise (KeyError sid) ∧
  _webio_sessions (after (_remove_webio_session sid) w1) = _webio_sessions w1 ∧
  _webio_expire (after (_remove_webio_session sid) w1) = _webio_expire w1.
Proof.
  unfold after, _remove_webio_session, mbind, M_bind, bind, log,
    sessions_delitem, expire_delitem.
  cbn [_webio_sessions _webio_expire record set_sessions set_expire].
  destruct (_webio_sessions w !! sid) as [obj|] eqn:Hs; [|done].
  cbn [_webio_sessions _webio_expire record set_sessions set_expire].
  destruct (OrderedDict.delitem sid (_webio_expire w)) as [d|]; [|done].
  intros [= <-]. cbn [_webio_sessions _webio_expire record set_sessions set_expire].
  by rewrite lookup_delete_eq.
Qed.

(** ** Further properties of the code *)

Lemma elem_of_remove {V} k (item : string * V) (d : list (string * V)) :
  item ∈ OrderedDict.remove k d ↔ item ∈ d ∧ item.1 ≠ k.
Proof.
  induction d as [|[k0 v0] d IH]; simpl.
  - rewrite elem_of_nil. naive_solver.
  - case_decide; rewrite ?elem_of_cons, IH; destruct item; naive_solver.
Qed.

(** X1. Outcome of [_remove_webio_session].  The removal returns exactly
    when the identifier is registered and has an expiry record.  When the
    identifier is not registered it raises [KeyError] and leaves both
    dictionaries as they were; when it is registered but has no expiry
    record it raises [KeyError] once the registry entry is deleted. *)
Theorem removal_outcome sid (w : World) :
  ((_remove_webio_session sid w).2 = Return tt
   ↔ is_Some (_webio_sessions w !! sid)
     ∧ sid ∈ OrderedDict.keys (_webio_expire w)) ∧
  (_webio_sessions w !! sid = None →
   (_remove_webio_session sid w).2 = Raise (KeyError sid) ∧
   _webio_sessions (after (_remove_webio_session sid) w) = _webio_sessions w ∧
   _webio_expire (after (_remove_webio_session sid) w) = _webio_expire w) ∧
  (is_Some (_webio_sessions w !! sid) →
   sid ∉ OrderedDict.keys (_webio_expire w) →
   (_remove_webio_session sid w).2 = Raise (KeyError sid) ∧
   _webio_sessions (after (_remove_webio_session sid) w)
   = delete sid (_webio_sessions w) ∧
   _webio_expire (after (_remove_webio_session sid) w) = _webio_expire w).
Proof.
  unfold after. rewrite _remove_webio_session_eq.
  unfold OrderedDict.delitem.
  destruct (_webio_sessions w !! sid) as [obj|] eqn:Hs; cbv zeta;
    [destruct (OrderedDict.contains sid (_webio_expire w)) eqn:Hc|].
  - unfold OrderedDict.contains in Hc. apply bool_decide_eq_true in Hc.
    split_and!; simpl.
    + split; [by eauto|done].
    + done.
    + intros _ Hn. by destruct Hn.
  - apply contains_false in Hc. split_and!; simpl.
    + split; [done|]. intros [_ Hin]. by destruct Hc.
    + done.
    + done.
  - split_and!; simpl.
    + split; [done|]. by intros [[? ?] _].
    + done.
    + by intros [? ?].
Qed.

(** X2. A removal that returns takes out the identifier and nothing
    else: the identifier is gone from the registry, every other identifier
    keeps its object, and the tracker keeps, in their order, exactly the
    records of the other identifiers. *)
Theorem removal_removes_exactly sid (w : World) :
  (_remove_webio_session sid w).2 = Return tt →
  (∀ sid',
     _webio_sessions (after (_remove_webio_session sid) w) !! sid'
     = if decide (sid' = sid) then None else _webio_sessions w !! sid') ∧
  (∀ item,
     item ∈ _webio_expire (after (_remove_webio_session sid) w)
     ↔ item ∈ _webio_expire w ∧ item.1 ≠ sid) ∧
  _webio_expire (after (_remove_webio_session sid) w)
  `sublist_of` _webio_expire w.
Proof.
  unfold after. rewrite _remove_webio_session_eq.
  unfold OrderedDict.delitem.
  destruct (_webio_sessions w !! sid) as [obj|] eqn:Hs; [|done]. cbv zeta.
  destruct (OrderedDict.contains sid (_webio_expire w)); [|done].
  intros _. simpl. split_and!.
  - intros sid'. case_decide as Heq.
    + subst. apply lookup_delete_eq.
    + by apply lookup_delete_ne.
  - intros item. apply elem_of_remove.
  - apply remove_sublist.
Qed.

(** X3. The sweep stops at once on a tracker that is empty or whose
    first record is within the idle budget: it returns, deletes nothing,
    and leaves the tracker and the registry exactly as they were; it has
    read the clock once, or not at all on an empty tracker. *)
Theorem sweep_keeps_fresh_front B (w : World) :
  OrderedDict.wf (_webio_expire w) →
  match _webio_expire w with
  | [] => True
  | (_, active_ts) :: _ => (reading w - active_ts < B)%Z
  end →
  (_remove_expired_sessions B w).2 = Return tt ∧
  _webio_expire (after (_remove_expired_sessions B) w) = _webio_expire w ∧
  _webio_sessions (after (_remove_expired_sessions B) w) = _webio_sessions w ∧
  ticks (after (_remove_expired_sessions B) w)
  = (ticks w + if _webio_expire w is [] then 0 else 1)%nat.
Proof.
  intros Hwf Hfront. unfold after.
  rewrite _remove_expired_sessions_eq, sweep_loop_eq.
  cbn [_webio_expire record]. cbv zeta.
  destruct (_webio_expire w) as [|[sid ts] rest] eqn:Hd.
  - simpl. split_and!; [done..|lia].
  - change (reading (record EvSweep w)) with (reading w).
    rewrite decide_True by done.
    rewrite (put_back (record EvSweep w) sid ts rest); [|by rewrite <-Hd in Hwf|done].
    simpl. split_and!; try done. lia.
Qed.

(** X4. When the sweep raises.  On a tracker that holds each identifier
    once, the sweep can only raise [KeyError], for an identifier that had
    an expiry record but no registry entry; that record is gone from the
    tracker when the exception leaves the sweep. *)
Theorem sweep_raises_on_dangling_record B (w : World) e :
  OrderedDict.wf (_webio_expire w) →
  (_remove_expired_sessions B w).2 = Raise e →
  ∃ sid,
    e = KeyError sid ∧
    sid ∈ OrderedDict.keys (_webio_expire w) ∧
    _webio_sessions w !! sid = None ∧
    sid ∉ OrderedDict.keys (_webio_expire (after (_remove_expired_sessions B) w)).
Proof.
  unfold after. rewrite _remove_expired_sessions_eq.
  change (_webio_expire w) with (_webio_expire (record EvSweep w)).
  change (_webio_sessions w) with (_webio_sessions (record EvSweep w)).
  generalize (record EvSweep w). clear w. intros w. revert e.
  apply (sweep_loop_cases B (fun w r =>
    ∀ e, OrderedDict.wf (_webio_expire w) → r.2 = Raise e →
    ∃ sid, e = KeyError sid ∧ sid ∈ OrderedDict.keys (_webio_expire w) ∧
           _webio_sessions w !! sid = None ∧
           sid ∉ OrderedDict.keys (_webio_expire r.1))).
  - done.
  - intros w0 sid ts rest Hd _ e Hwf. by rewrite (put_back _ _ _ _ Hwf Hd).
  - intros w0 sid ts rest Hd _ Hs e Hwf [= <-]. exists sid.
    rewrite Hd in Hwf |- *. unfold OrderedDict.wf in Hwf. simpl in *.
    apply NoDup_cons in Hwf as [Hsid _].
    split_and!; [done|set_solver|done|done].
  - intros w0 sid ts rest obj Hd _ Hs w1 IH e Hwf Hr. subst w1.
    rewrite Hd in Hwf. unfold OrderedDict.wf in Hwf. simpl in Hwf.
    apply NoDup_cons in Hwf as [Hsid Hrest].
    destruct (IH e Hrest Hr) as (sid0 & -> & Hin & Hnone & Hout).
    simpl in *. exists sid0. split_and!; [done| | |done].
    + rewrite Hd. simpl. set_solver.
    + rewrite lookup_delete_ne in Hnone; [done|]. intros ->. by apply Hsid.
Qed.

Lemma sweep_loop_subseteq B (w : World) :
  _webio_sessions (sweep_loop B w).1 ⊆ _webio_sessions w.
Proof.
  revert w. apply (sweep_loop_cases B (fun w r =>
    _webio_sessions r.1 ⊆ _webio_sessions w)).
  - done.
  - intros w0 sid ts rest _ _.
    unfold mbind, M_bind, bind, expire_setitem, expire_move_to_front.
    cbn [_webio_expire set_expire tick set_ticks].
    by destruct (OrderedDict.move_to_end _ _ _).
  - done.
  - intros w0 sid ts rest obj _ _ _ w1 IH. subst w1. simpl in *.
    etrans; [exact IH|]. apply delete_subseteq.
Qed.

Lemma sweep_loop_readings B (w : World) :
  (ticks (sweep_loop B w).1 ≤ ticks w + length (_webio_expire w))%nat.
Proof.
  revert w. apply (sweep_loop_cases B (fun w r =>
    (ticks r.1 ≤ ticks w + length (_webio_expire w))%nat)).
  - intros w0 _. simpl. lia.
  - intros w0 sid ts rest Hd _.
    unfold mbind, M_bind, bind, expire_setitem, expire_move_to_front.
    cbn [_webio_expire set_expire tick set_ticks].
    destruct (OrderedDict.move_to_end _ _ _); rewrite Hd; simpl; lia.
  - intros w0 sid ts rest Hd _ _. rewrite Hd. simpl. lia.
  - intros w0 sid ts rest obj Hd _ _ w1 IH. subst w1. rewrite Hd.
    simpl in *. lia.
Qed.

(** X5. What the sweep never does.  Whatever the state, the sweep
    touches no session object and creates none, leaves the last-sweep
    timestamp alone (it is the handler that advances it), and registers
    nothing: an identifier registered after the sweep was registered
    before it, for the same object. *)
Theorem sweep_only_deletes B (w : World) :
  objects (after (_remove_expired_sessions B) w) = objects w ∧
  next_object (after (_remove_expired_sessions B) w) = next_object w ∧
  _last_check_session_expire_ts (after (_remove_expired_sessions B) w)
  = _last_check_session_expire_ts w ∧
  _webio_sessions (after (_remove_expired_sessions B) w) ⊆ _webio_sessions w.
Proof.
  unfold after. rewrite _remove_expired_sessions_eq.
  destruct (sweep_loop_frame B (record EvSweep w)) as (Ho & Hn & Hl & _).
  split_and!; [done..|]. apply (sweep_loop_subseteq B (record EvSweep w)).
Qed.

(** X6. The sweep reads the clock at most once for each record the
    tracker holds when it starts, so it makes at most that many
    iterations. *)
Theorem sweep_readings_bounded B (w : World) :
  (ticks w ≤ ticks (after (_remove_expired_sessions B) w)
   ≤ ticks w + length (_webio_expire w))%nat.
Proof.
  unfold after. rewrite _remove_expired_sessions_eq.
  destruct (sweep_loop_frame B (record EvSweep w)) as (_ & _ & _ & _ & Ht & _).
  split; [done|]. apply (sweep_loop_readings B (record EvSweep w)).
Qed.

(** *** The handler, case by case *)

Lemma _webio_view_cases coro_func B (request : Request) (w : World) :
  (truthy (args_test request) = true ∧
   _webio_view coro_func B request w
   = (w, Return (mkResponse (Text "ok") None)))
  ∨ (truthy (args_test request) = false ∧
     truthy (header_webio_session_id request) = true ∧
     _webio_view coro_func B request w
     = (w, Return (jsonify [close_session_message])))
  ∨ (∃ set_header sid obj w1,
       resolves coro_func request w set_header sid obj w1 ∧
       _webio_view coro_func B request w
       = serve B request set_header sid obj w1).
Proof.
  rewrite _webio_view_eq.
  destruct (truthy (args_test request)) eqn:Ht; [by left|].
  destruct (truthy (header_webio_session_id request)) eqn:Hh; cbn [negb].
  - destruct (header_webio_session_id request) as [sid|] eqn:Hs; [|done].
    cbn [default id]. simpl in Hh. apply negb_true_iff, String.eqb_neq in Hh.
    destruct (_webio_sessions w !! sid) as [obj|] eqn:Hobj.
    + right. right. exists false, sid, obj, w. split; [|done].
      split; [done|]. right. by rewrite Hs.
    + right. left. by split_and!.
  - right. right.
    exists true, (draw (drawn w) 24), (next_object w),
      (start_new_session coro_func w).1.
    split; [|done]. split; [done|]. left.
    by rewrite start_new_session_eq.
Qed.

Lemma resolves_serve coro_func B (request : Request) (w : World)
    (set_header : bool) sid obj (w1 : World) :
  resolves coro_func request w set_header sid obj w1 →
  _webio_view coro_func B request w = serve B request set_header sid obj w1.
Proof.
  intros [Ht [(Hh & Hstart & ->)|(Hh & Hsid & Hs & -> & ->)]];
    rewrite _webio_view_eq, Ht.
  - rewrite Hh. cbn [negb]. rewrite Hstart. cbn [fst].
    rewrite start_new_session_eq in Hstart. by injection Hstart as _ <- <-.
  - rewrite Hh. cbn [truthy default]. apply String.eqb_neq in Hsid.
    rewrite Hsid. cbn [negb id]. by rewrite Hs.
Qed.

Lemma resolves_facts coro_func (request : Request) (w : World)
    (set_header : bool) sid obj (w1 : World) :
  resolves coro_func request w set_header sid obj w1 →
  _webio_sessions w1 !! sid = Some obj ∧
  sid ≠ EmptyString ∧
  (consistent w → consistent w1) ∧
  _last_check_session_expire_ts w1 = _last_check_session_expire_ts w ∧
  (∀ o, o ≠ obj → objects w1 o = objects w o) ∧
  next_object w1 = (if set_header then S (next_object w) else next_object w) ∧
  (if set_header
   then truthy (header_webio_session_id request) = false ∧
        sid = draw (drawn w) 24 ∧ obj = next_object w ∧
        _webio_sessions w1 = <[sid := obj]> (_webio_sessions w) ∧
        _webio_expire w1 = LRUDict.setitem sid (reading w) (_webio_expire w)
   else header_webio_session_id request = Some sid ∧ w1 = w).
Proof.
  intros [Ht [(Hh & Hstart & ->)|(Hh & Hsid & Hs & -> & ->)]].
  - pose proof (start_new_session_consistent coro_func w) as Hc.
    rewrite Hstart in Hc. cbn [fst] in Hc.
    rewrite start_new_session_eq in Hstart. injection Hstart as <- <- <-.
    simpl. split_and!; try done.
    + by rewrite lookup_insert_eq.
    + intros o Ho. by rewrite fn_lookup_insert_ne.
  - by split_and!.
Qed.

Lemma respond_frame (set_header : bool) sid obj (w : World) :
  next_object (respond set_header sid obj w).1 = next_object w ∧
  drawn (respond set_header sid obj w).1 = drawn w ∧
  ticks (respond set_header sid obj w).1 = ticks w ∧
  _last_check_session_expire_ts (respond set_header sid obj w).1
  = _last_check_session_expire_ts w ∧
  (∀ o, o ≠ obj → objects (respond set_header sid obj w).1 o = objects w o) ∧
  _webio_sessions (respond set_header sid obj w).1 ⊆ _webio_sessions w.
Proof.
  rewrite respond_eq. cbv zeta.
  assert (∀ o, o ≠ obj → objects (pulled obj w) o = objects w o) as Hobj.
  { intros o Ho. simpl. by rewrite fn_lookup_insert_ne. }
  destruct (closed _).
  - rewrite _remove_webio_session_eq.
    destruct (_webio_sessions (pulled obj w) !! sid); cbv zeta;
      [destruct (OrderedDict.delitem _ _)|]; simpl;
      (split_and!; [done|done|done|done|exact Hobj|]);
      try apply delete_subseteq; done.
  - destruct set_header; simpl; by split_and!.
Qed.

Lemma sweep_if_due_subseteq B (w : World) :
  _webio_sessions (sweep_if_due B w).1 ⊆ _webio_sessions w.
Proof.
  rewrite sweep_if_due_eq. case_decide; [|done].
  pose proof (sweep_loop_subseteq B (record EvSweep (tick w))) as Hs.
  by destruct (sweep_loop B _) as [w' [[]|e]].
Qed.

Lemma serve_frame B (request : Request) (set_header : bool) sid obj (w : World) :
  next_object (serve B request set_header sid obj w).1 = next_object w ∧
  drawn (serve B request set_header sid obj w).1 = drawn w ∧
  (∀ o, o ≠ obj →
        objects (serve B request set_header sid obj w).1 o = objects w o) ∧
  _webio_sessions (serve B request set_header sid obj w).1 ⊆ _webio_sessions w.
Proof.
  rewrite serve_eq.
  destruct (sweep_if_due_frame B (pushed request obj w)) as (Ho & Hn & Hd & _).
  pose proof (sweep_if_due_subseteq B (pushed request obj w)) as Hs.
  assert (next_object (pushed request obj w) = next_object w ∧
          drawn (pushed request obj w) = drawn w ∧
          _webio_sessions (pushed request obj w) = _webio_sessions w ∧
          ∀ o, o ≠ obj → objects (pushed request obj w) o = objects w o)
    as (Hpn & Hpd & Hps & Hpo).
  { unfold pushed. destruct (method request); simpl; split_and!; try done.
    intros o Hne. by rewrite fn_lookup_insert_ne. }
  destruct (sweep_if_due B _) as [w' [[]|e]]; simpl in *.
  - destruct (respond_frame set_header sid obj w')
      as (Hrn & Hrd & _ & _ & Hro & Hrs).
    split_and!; [congruence|congruence| |].
    + intros o Hne. rewrite Hro, Ho by done. by apply Hpo.
    + etrans; [exact Hrs|]. by rewrite <-Hps.
  - split_and!; [congruence|congruence| |].
    + intros o Hne. rewrite Ho. by apply Hpo.
    + by rewrite <-Hps.
Qed.

Lemma serve_last_check B (request : Request) (set_header : bool) sid obj
    (w : World) :
  monotone_clock →
  _last_check_session_expire_ts (serve B request set_header sid obj w).1
  = _last_check_session_expire_ts w
  ∨ (_last_check_session_expire_ts (serve B request set_header sid obj w).1
     > _last_check_session_expire_ts w + REMOVE_EXPIRED_SESSIONS_INTERVAL)%Z.
Proof.
  intros Hclock. rewrite serve_eq, sweep_if_due_eq.
  assert (_last_check_session_expire_ts (pushed request obj w)
          = _last_check_session_expire_ts w ∧
          reading (pushed request obj w) = reading w ∧
          ticks (pushed request obj w) = ticks w) as (Hl & Hr & Ht).
  { unfold pushed, reading. by destruct (method request). }
  rewrite Hl, Hr. case_decide as Hdue.
  - destruct (sweep_loop_frame B (record EvSweep (tick (pushed request obj w))))
      as (_ & _ & Hl' & _ & Ht' & _).
    destruct (sweep_loop B _) as [w' [[]|e]]; simpl in *.
    + destruct (respond_frame set_header sid obj
                  (set_last_check (reading w') (tick w')))
        as (_ & _ & _ & -> & _).
      right. simpl. unfold reading in *.
      assert (clock env (ticks w) <= clock env (ticks w'))%Z
        by (apply Hclock; lia).
      lia.
    + left. congruence.
  - destruct (respond_frame set_header sid obj (tick (pushed request obj w)))
      as (_ & _ & _ & -> & _).
    left. simpl. done.
Qed.

(** X7. Cadence of the sweep.  When the readings of the clock never go
    back, a request either leaves the last-sweep timestamp as it was or
    moves it forward by more than the sweep interval: two sweeps are never
    recorded within [REMOVE_EXPIRED_SESSIONS_INTERVAL] seconds of each
    other. *)
Theorem last_sweep_advances_by_interval coro_func B (request : Request)
    (w : World) :
  monotone_clock →
  _last_check_session_expire_ts (after (_webio_view coro_func B request) w)
  = _last_check_session_expire_ts w
  ∨ (_last_check_session_expire_ts (after (_webio_view coro_func B request) w)
     > _last_check_session_expire_ts w + REMOVE_EXPIRED_SESSIONS_INTERVAL)%Z.
Proof.
  intros Hclock. unfold after.
  destruct (_webio_view_cases coro_func B request w)
    as [[_ ->]|[(_ & _ & ->)|(sh & sid & obj & w1 & Hres & ->)]];
    [by left..|].
  apply resolves_facts in Hres as (_ & _ & _ & <- & _).
  by apply serve_last_check.
Qed.

(** X8. A response carries an identifier only when the request presented
    none (and was no probe), and the identifier is then the one just
    drawn: a client that presents an identifier is never given another. *)
Theorem identifier_only_sent_to_new_session coro_func B (request : Request)
    (w : World) response sid :
  (_webio_view coro_func B request w).2 = Return response →
  response_webio_session_id response = Some sid →
  truthy (args_test request) = false ∧
  truthy (header_webio_session_id request) = false ∧
  sid = draw (drawn w) 24.
Proof.
  destruct (_webio_view_cases coro_func B request w)
    as [[_ ->]|[(_ & _ & ->)|(sh & sid0 & obj & w1 & Hres & ->)]].
  - by intros [= <-].
  - by intros [= <-].
  - intros Hr Hsid. apply serve_response in Hr as [_ Hr].
    rewrite Hsid in Hr. pose proof Hres as [Ht _].
    apply resolves_facts in Hres as (_ & _ & _ & _ & _ & _ & Hsh).
    destruct (closed _); [done|]. destruct sh; [|done].
    destruct Hsh as (Hh & -> & _). split_and!; [done..|congruence].
Qed.

(** X9. A request that is served calls its own session object and no
    other: the state of every other object of the store is as before.  It
    creates one object when it starts a session and none otherwise. *)
Theorem request_touches_own_session coro_func B (request : Request) (w : World)
    (set_header : bool) sid obj (w1 : World) :
  resolves coro_func request w set_header sid obj w1 →
  (∀ o, o ≠ obj →
        objects (after (_webio_view coro_func B request) w) o = objects w o) ∧
  next_object (after (_webio_view coro_func B request) w)
  = if set_header then S (next_object w) else next_object w.
Proof.
  intros Hres. unfold after. rewrite (resolves_serve _ B _ _ _ _ _ _ Hres).
  apply resolves_facts in Hres as (_ & _ & _ & _ & Hobj & Hnext & _).
  destruct (serve_frame B request set_header sid obj w1) as (Hn & _ & Ho & _).
  split.
  - intros o Hne. rewrite Ho by done. by apply Hobj.
  - congruence.
Qed.

Lemma store_ok_subseteq (w w' : World) :
  store_ok w →
  _webio_sessions w' ⊆ _webio_sessions w →
  (next_object w ≤ next_object w')%nat →
  store_ok w'.
Proof.
  intros [Hbound Hinj] Hsub Hn. split.
  - intros sid obj Hs. eapply lookup_weaken in Hs; [|exact Hsub].
    apply Hbound in Hs. lia.
  - intros sid1 sid2 obj H1 H2.
    eapply Hinj; eapply lookup_weaken; eauto.
Qed.

(** X10. The store stays well formed across a request: every registered
    object has been created, and no two identifiers share a session object
    (the object of a new session is one no identifier had before). *)
Theorem store_stays_ok coro_func B (request : Request) (w : World) :
  store_ok w → store_ok (after (_webio_view coro_func B request) w).
Proof.
  intros Hw. unfold after.
  destruct (_webio_view_cases coro_func B request w)
    as [[_ ->]|[(_ & _ & ->)|(sh & sid & obj & w1 & Hres & ->)]];
    [done..|].
  destruct (serve_frame B request sh sid obj w1) as (Hn & _ & _ & Hsub).
  eapply store_ok_subseteq; [|exact Hsub|by rewrite Hn].
  apply resolves_facts in Hres as (_ & _ & _ & _ & _ & Hnext & Hsh).
  destruct sh.
  - destruct Hsh as (_ & -> & -> & Hs & _). destruct Hw as [Hbound Hinj].
    split.
    + intros sid' o. rewrite Hs, Hnext, lookup_insert_Some.
      intros [[_ <-]|[_ Ho]]; [lia|]. apply Hbound in Ho. lia.
    + intros sid1 sid2 o. rewrite Hs, !lookup_insert_Some.
      intros [[<- <-]|[Hne1 H1]] [[<- Ho]|[Hne2 H2]]; [done| | |by eauto].
      * apply Hbound in H2. lia.
      * subst o. apply Hbound in H1. lia.
  - by destruct Hsh as (_ & ->).
Qed.

(** X11. Once a session has reported closed at the end of a request, in a
    consistent state, a later request that presents its identifier is told
    to close: the answer is the single message [close_session] and the
    state is left as it is. *)
Theorem closed_session_is_gone coro_func B (request next_request : Request)
    (w : World) (set_header : bool) sid obj (w1 : World) :
  consistent w →
  resolves coro_func request w set_header sid obj w1 →
  closed (get_task_messages (objects (pushed request obj w1) obj)).2 = true →
  truthy (args_test next_request) = false →
  header_webio_session_id next_request = Some sid →
  _webio_view coro_func B next_request
    (after (_webio_view coro_func B request) w)
  = (after (_webio_view coro_func B request) w,
     Return (jsonify [close_session_message])).
Proof.
  intros Hw Hres Hclosed Ht Hh. unfold after.
  rewrite (resolves_serve _ B _ _ _ _ _ _ Hres).
  apply resolves_facts in Hres as (_ & Hsid & Hw1 & _).
  destruct (serve_closed_removes B request set_header sid obj w1 (Hw1 Hw) Hclosed)
    as [_ Hnone].
  rewrite _webio_view_eq, Ht, Hh. cbn [truthy default id].
  apply String.eqb_neq in Hsid. rewrite Hsid. cbn [negb]. by rewrite Hnone.
Qed.

(** X12. The only expiry record a request writes is the one of the
    session it starts.  On a tracker that holds each identifier once, the
    tracker after the request keeps records, in their order and with their
    timestamps, of the tracker before, to which a request without
    identifier (and no probe) first adds the record of the new session at
    the most recently active end. *)
Theorem request_writes_only_its_own_record coro_func B (request : Request)
    (w : World) :
  OrderedDict.wf (_webio_expire w) →
  _webio_expire (after (_webio_view coro_func B request) w)
  `sublist_of`
  (if negb (truthy (args_test request))
      && negb (truthy (header_webio_session_id request))
   then LRUDict.setitem (draw (drawn w) 24) (reading w) (_webio_expire w)
   else _webio_expire w).
Proof.
  intros Hwf. unfold after.
  destruct (_webio_view_cases coro_func B request w)
    as [[Ht ->]|[(Ht & Hh & ->)|(sh & sid & obj & w1 & Hres & ->)]].
  - by rewrite Ht.
  - rewrite Ht, Hh. done.
  - pose proof Hres as [Ht _]. rewrite Ht. cbn [negb andb].
    apply resolves_facts in Hres as (_ & Hsid & _ & _ & _ & _ & Hsh).
    destruct sh.
    + destruct Hsh as (Hh & -> & -> & _ & Hexp). rewrite Hh. cbn [negb].
      rewrite <-Hexp. apply serve_shrinks. rewrite Hexp. by apply wf_setitem.
    + destruct Hsh as (Hh & ->). rewrite Hh. cbn [truthy].
      apply String.eqb_neq in Hsid. rewrite Hsid. cbn [negb].
      by apply serve_shrinks.
Qed.

(** X13. A session evicted by the sweep is gone for its client: in a
    consistent state, after a sweep, a request that presents an identifier
    whose record was in the expired prefix is answered with the single
    message [close_session], and the state is left as it is. *)
Theorem evicted_session_is_gone coro_func B B' (request : Request) (w : World)
    sid :
  consistent w →
  sid ∈ OrderedDict.keys (expired_prefix B (ticks w) (_webio_expire w)) →
  truthy (args_test request) = false →
  header_webio_session_id request = Some sid →
  sid ≠ EmptyString →
  _webio_view coro_func B' request (after (_remove_expired_sessions B) w)
  = (after (_remove_expired_sessions B) w,
     Return (jsonify [close_session_message])).
Proof.
  intros [Hwf Hp] Hgone Ht Hh Hsid. unfold after.
  rewrite _remove_expired_sessions_eq.
  destruct (sweep_loop_spec B (record EvSweep w)) as (_ & _ & Hlook & _).
  { done. }
  { intros k Hk. by apply Hp. }
  specialize (Hlook sid). simpl in Hlook. rewrite decide_True in Hlook by done.
  rewrite _webio_view_eq, Ht, Hh. cbn [truthy default id].
  apply String.eqb_neq in Hsid. rewrite Hsid. cbn [negb]. by rewrite Hlook.
Qed.

(** X14. The [KeyError] of the handler's own dictionaries.  The calls
    made on the request and on the session are taken to return (what
    [request.json] or a session method may raise is not modelled); what is
    left to raise is a deletion from the registry or from the tracker, at
    lines 56 and 63-64.  On a consistent state such a [KeyError] arises in
    one situation only: the sweep was due and evicted the very session of
    the request, and that session then reported closed, so that its
    removal fails, with its identifier as the missing key. *)
Theorem keyerror_only_after_eviction coro_func B (request : Request)
    (w : World) key :
  consistent w →
  (_webio_view coro_func B request w).2 = Raise (KeyError key) →
  ∃ set_header sid obj w1,
    resolves coro_func request w set_header sid obj w1 ∧
    key = sid ∧
    sweep_due w1 ∧
    closed (get_task_messages (objects (pushed request obj w1) obj)).2 = true ∧
    _webio_sessions (after (_webio_view coro_func B request) w) !! sid = None.
Proof.
  intros Hw. unfold after.
  destruct (_webio_view_cases coro_func B request w)
    as [[_ ->]|[(_ & _ & ->)|(sh & sid & obj & w1 & Hres & ->)]];
    [done..|].
  intros Hr. exists sh, sid, obj, w1. split; [done|].
  apply resolves_facts in Hres as (Hreg & _ & Hw1 & _).
  specialize (Hw1 Hw). revert Hr. rewrite serve_eq.
  pose proof (pushed_consistent request obj w1 Hw1) as Hpw.
  destruct (sweep_if_due_consistent B _ Hpw) as [Hret [Hwf' Hp']].
  destruct (sweep_if_due_frame B (pushed request obj w1)) as (Hobj & _).
  pose proof (sweep_if_due_eq B (pushed request obj w1)) as Heq.
  destruct (sweep_if_due B (pushed request obj w1)) as [w' [[]|e']]; [|done].
  simpl in *. rewrite respond_eq. cbv zeta. rewrite Hobj.
  destruct (closed _) eqn:Hc; [|by destruct sh].
  rewrite _remove_webio_session_eq.
  change (_webio_sessions (pulled obj w')) with (_webio_sessions w').
  change (_webio_expire (pulled obj w')) with (_webio_expire w').
  destruct (_webio_sessions w' !! sid) as [o|] eqn:Hs'; cbv zeta.
  - unfold OrderedDict.delitem.
    destruct (OrderedDict.contains sid (_webio_expire w')) eqn:Hin; [done|].
    apply contains_false in Hin. exfalso. apply Hin, Hp'. by rewrite Hs'.
  - intros [= <-]. simpl. split_and!; [done| |done|done].
    assert (sweep_due (pushed request obj w1)) as Hdue.
    { unfold sweep_due. destruct (decide (reading (pushed request obj w1)
        - _last_check_session_expire_ts (pushed request obj w1)
        > REMOVE_EXPIRED_SESSIONS_INTERVAL)%Z) as [|Hn]; [done|].
      injection Heq as ->. simpl in Hs'. exfalso.
      assert (_webio_sessions (pushed request obj w1) = _webio_sessions w1)
        as Hps by (unfold pushed; by destruct (method request)).
      congruence. }
    unfold sweep_due, pushed, reading in *. by destruct (method request).
Qed.

(** X15. A request registers at most one identifier, the one it draws
    when it presents none: apart from it, an identifier registered after
    the request was registered before it, for the same object. *)
Theorem request_registers_at_most_one coro_func B (request : Request)
    (w : World) :
  _webio_sessions (after (_webio_view coro_func B request) w)
  ⊆ (if negb (truthy (args_test request))
        && negb (truthy (header_webio_session_id request))
     then <[draw (drawn w) 24 := next_object w]> (_webio_sessions w)
     else _webio_sessions w).
Proof.
  unfold after.
  destruct (_webio_view_cases coro_func B request w)
    as [[Ht ->]|[(Ht & Hh & ->)|(sh & sid & obj & w1 & Hres & ->)]].
  - by rewrite Ht.
  - by rewrite Ht, Hh.
  - pose proof Hres as [Ht _]. rewrite Ht. cbn [negb andb].
    destruct (serve_frame B request sh sid obj w1) as (_ & _ & _ & Hsub).
    apply resolves_facts in Hres as (_ & Hsid & _ & _ & _ & _ & Hsh).
    destruct sh.
    + destruct Hsh as (Hh & -> & -> & Hs & _). rewrite Hh. cbn [negb].
      by rewrite <-Hs.
    + destruct Hsh as (Hh & ->). rewrite Hh. cbn [truthy].
      apply String.eqb_neq in Hsid. by rewrite Hsid.
Qed.


End Flask.

(** ** Runs on concrete states *)

Lemma three_sessions_wf :
  OrderedDict.wf (_webio_expire Scenario.three_sessions).
Proof.
  unfold OrderedDict.wf. simpl. apply (bool_decide_unpack _).
  vm_compute. exact I.
Qed.

Lemma three_sessions_paired : paired Scenario.three_sessions.
Proof.
  intros sid. simpl.
  rewrite !lookup_insert_is_Some, lookup_empty, !elem_of_cons, elem_of_nil.
  rewrite <-not_eq_None_Some.
  destruct (decide ("s1"%string = sid)), (decide ("s2"%string = sid)),
    (decide ("s3"%string = sid)); naive_solver.
Qed.

(** C4 at [three_sessions]: with budget 4 at time 10 the sessions last
    active at 1 and 5 go, the one last active at 9 stays. *)
Lemma sweep_removes_expired_prefix_witness :
  ∃ gone kept,
    _webio_expire Scenario.three_sessions = gone ++ kept ∧
    Forall (fun item => (10 - item.2 >= 4)%Z) gone ∧
    Forall (fun item => (10 - item.2 < 4)%Z) kept ∧
    (_remove_expired_sessions (Scenario.at_time 10) 4 Scenario.three_sessions).2
    = Return tt ∧
    _webio_expire
      (after (_remove_expired_sessions (Scenario.at_time 10) 4)
         Scenario.three_sessions) = kept ∧
    (∀ sid,
       _webio_sessions
         (after (_remove_expired_sessions (Scenario.at_time 10) 4)
            Scenario.three_sessions) !! sid
       = if decide (sid ∈ OrderedDict.keys gone) then None
         else _webio_sessions Scenario.three_sessions !! sid) ∧
    ticks (after (_remove_expired_sessions (Scenario.at_time 10) 4)
             Scenario.three_sessions)
    = (ticks Scenario.three_sessions + length gone
       + (if kept is [] then 0 else 1))%nat.
Proof.
  apply (sweep_removes_expired_prefix (Scenario.at_time 10) 4 10
           Scenario.three_sessions).
  - reflexivity.
  - exact three_sessions_wf.
  - simpl. repeat constructor; lia.
  - intros sid. apply three_sessions_paired.
Defined.

(** C8 at a probe that presents no identifier. *)
Lemma probe_returns_ok_witness :
  _webio_view (Scenario.at_time 10) 3 14400
    (Scenario.get (Some "1") None) Scenario.empty_world
  = (Scenario.empty_world, Return (mkResponse (Text "ok") None)).
Proof. apply probe_returns_ok. reflexivity. Defined.

(** C2 as stated fails on a probe: the request presents an identifier that
    is not registered, and the answer is the literal [ok], not the
    [close_session] message. *)
Lemma unknown_session_probe_counterexample :
  header_webio_session_id (Scenario.get (Some "1") (Some "gone")) = Some "gone" ∧
  _webio_sessions Scenario.empty_world !! "gone" = None ∧
  (_webio_view (Scenario.at_time 10) 3 14400
     (Scenario.get (Some "1") (Some "gone")) Scenario.empty_world).2
  = Return (mkResponse (Text "ok") None) ∧
  (_webio_view (Scenario.at_time 10) 3 14400
     (Scenario.get (Some "1") (Some "gone")) Scenario.empty_world).2
  ≠ Return (jsonify [close_session_message]).
Proof. split_and!; [reflexivity..|]. vm_compute. discriminate. Qed.

(** C2, amended, at a poll for an identifier that is gone. *)
Lemma unknown_session_closes_witness :
  _webio_view (Scenario.at_time 10) 3 14400
    (Scenario.get None (Some "gone")) Scenario.three_sessions
  = (Scenario.three_sessions, Return (jsonify [close_session_message])).
Proof.
  apply (unknown_session_closes _ _ _ _ _ "gone"); [reflexivity..|discriminate|].
  vm_compute. reflexivity.
Defined.

(** C5 as stated fails: the second removal of ["s1"] raises [KeyError]. *)
Lemma second_removal_counterexample :
  (_remove_webio_session "s1" Scenario.three_sessions).2 = Return tt ∧
  (_remove_webio_session "s1"
     (after (_remove_webio_session "s1") Scenario.three_sessions)).2
  = Raise (KeyError "s1").
Proof. split; vm_compute; reflexivity. Qed.

(** C5, amended, at the same state. *)
Lemma second_removal_raises_witness :
  (_remove_webio_session "s1"
     (after (_remove_webio_session "s1") Scenario.three_sessions)).2
  = Raise (KeyError "s1") ∧
  _webio_sessions
    (after (_remove_webio_session "s1")
       (after (_remove_webio_session "s1") Scenario.three_sessions))
  = _webio_sessions (after (_remove_webio_session "s1") Scenario.three_sessions) ∧
  _webio_expire
    (after (_remove_webio_session "s1")
       (after (_remove_webio_session "s1") Scenario.three_sessions))
  = _webio_expire (after (_remove_webio_session "s1") Scenario.three_sessions).
Proof.
  apply (second_removal_raises "s1" Scenario.three_sessions).
  vm_compute. reflexivity.
Defined.

(** C1 at [three_sessions], for a POST that starts a session. *)
Lemma pairing_invariant_witness :
  paired (after (start_new_session (Scenario.at_time 10) 3)
            Scenario.three_sessions) ∧
  paired (after (_remove_expired_sessions (Scenario.at_time 10) 4)
            Scenario.three_sessions) ∧
  paired (after (_remove_webio_session "s2") Scenario.three_sessions) ∧
  paired (after (_webio_view (Scenario.at_time 10) 3 4
                   (Scenario.post None "click"))
            Scenario.three_sessions).
Proof.
  apply (pairing_invariant (Scenario.at_time 10) 3 4
           (Scenario.post None "click") "s2" Scenario.three_sessions).
  - exact three_sessions_wf.
  - exact three_sessions_paired.
Defined.

(** C3 at a POST for the registered session ["s2"], made when the sweep
    is due. *)
Lemma side_effects_in_order_witness :
  trace (after (_webio_view (Scenario.at_time 200) 3 195
        (Scenario.post (Some "s2") "click")) Scenario.three_sessions)
  = trace Scenario.three_sessions
    ++ push_events (Scenario.post (Some "s2") "click") 1
    ++ sweep_events (Scenario.at_time 200) Scenario.three_sessions
         (OrderedDict.keys (swept (Scenario.at_time 200) 195 Scenario.three_sessions))
    ++ [EvPull 1; EvClosed 1 (closed (get_task_messages (objects (pushed (Scenario.post (Some "s2") "click") 1
              Scenario.three_sessions) 1)).2)]
    ++ final_events (closed (get_task_messages (objects (pushed (Scenario.post (Some "s2") "click") 1
              Scenario.three_sessions) 1)).2) false "s2" ∧
  (method (Scenario.post (Some "s2") "click") = POST →
   (objects (pushed (Scenario.post (Some "s2") "click") 1
              Scenario.three_sessions) 1)
   = send_client_event (json (Scenario.post (Some "s2") "click"))
       (objects Scenario.three_sessions 1)) ∧
  (method (Scenario.post (Some "s2") "click") ≠ POST →
   ∀ o event,
     EvPush o event
     ∉ drop (length (trace Scenario.three_sessions))
         (trace (after (_webio_view (Scenario.at_time 200) 3 195
        (Scenario.post (Some "s2") "click")) Scenario.three_sessions))) ∧
  (∀ response,
     ((_webio_view (Scenario.at_time 200) 3 195
        (Scenario.post (Some "s2") "click")) Scenario.three_sessions).2 = Return response →
     body response = Json (get_task_messages (objects (pushed (Scenario.post (Some "s2") "click") 1
              Scenario.three_sessions) 1)).1) ∧
  ((_webio_view (Scenario.at_time 200) 3 195
        (Scenario.post (Some "s2") "click")) Scenario.three_sessions).2
  = (if closed (get_task_messages (objects (pushed (Scenario.post (Some "s2") "click") 1
              Scenario.three_sessions) 1)).2
     then (if decide ("s2" ∈ OrderedDict.keys (swept (Scenario.at_time 200) 195 Scenario.three_sessions))
           then Raise (KeyError "s2")
           else Return (jsonify (get_task_messages (objects (pushed (Scenario.post (Some "s2") "click") 1
              Scenario.three_sessions) 1)).1))
     else Return (mkResponse (Json (get_task_messages (objects (pushed (Scenario.post (Some "s2") "click") 1
              Scenario.three_sessions) 1)).1)
                    (if false then Some "s2" else None))) ∧
  objects (after (_webio_view (Scenario.at_time 200) 3 195
        (Scenario.post (Some "s2") "click")) Scenario.three_sessions) 1
  = (get_task_messages (objects (pushed (Scenario.post (Some "s2") "click") 1
              Scenario.three_sessions) 1)).2 ∧
  _webio_expire (after (_webio_view (Scenario.at_time 200) 3 195
        (Scenario.post (Some "s2") "click")) Scenario.three_sessions)
  = (if closed (get_task_messages (objects (pushed (Scenario.post (Some "s2") "click") 1
              Scenario.three_sessions) 1)).2
     then OrderedDict.remove "s2"
            (drop (length (swept (Scenario.at_time 200) 195 Scenario.three_sessions)) (_webio_expire Scenario.three_sessions))
     else drop (length (swept (Scenario.at_time 200) 195 Scenario.three_sessions)) (_webio_expire Scenario.three_sessions)) ∧
  (∀ k, _webio_sessions (after (_webio_view (Scenario.at_time 200) 3 195
        (Scenario.post (Some "s2") "click")) Scenario.three_sessions) !! k
        = if decide (k ∈ OrderedDict.keys (swept (Scenario.at_time 200) 195 Scenario.three_sessions)) then None
          else if closed (get_task_messages (objects (pushed (Scenario.post (Some "s2") "click") 1
              Scenario.three_sessions) 1)).2
               then (if decide (k = "s2") then None
                     else _webio_sessions Scenario.three_sessions !! k)
               else _webio_sessions Scenario.three_sessions !! k) ∧
  _last_check_session_expire_ts (after (_webio_view (Scenario.at_time 200) 3 195
        (Scenario.post (Some "s2") "click")) Scenario.three_sessions)
  = (if decide (reading (Scenario.at_time 200) Scenario.three_sessions
                   - _last_check_session_expire_ts Scenario.three_sessions
                   > REMOVE_EXPIRED_SESSIONS_INTERVAL)%Z
     then clock (Scenario.at_time 200)
            (S (ticks Scenario.three_sessions) + length (swept (Scenario.at_time 200) 195 Scenario.three_sessions)
             + if drop (length (swept (Scenario.at_time 200) 195 Scenario.three_sessions)) (_webio_expire Scenario.three_sessions)
                 is [] then 0 else 1)
     else _last_check_session_expire_ts Scenario.three_sessions).
Proof.
  apply (side_effects_in_order (Scenario.at_time 200) 3 195
           (Scenario.post (Some "s2") "click") false "s2" 1
           Scenario.three_sessions Scenario.three_sessions).
  - split; [exact three_sessions_wf | exact three_sessions_paired].
  - reflexivity.
  - right. split_and!; [reflexivity|discriminate|vm_compute; reflexivity|
                        reflexivity|reflexivity].
Defined.

(** C6 fails on the code.  The session ["s1"], last active at 1, polls at
    time 100: its record keeps the timestamp 1 and stays at the least
    recently active end, where touching it would have given
    [("s2", 5); ("s3", 9); ("s1", 100)]. *)
Lemma existing_session_expiry_not_refreshed :
  _webio_sessions Scenario.three_sessions !! "s1" = Some 0 ∧
  (_webio_view (Scenario.at_time 100) 3 14400
     (Scenario.get None (Some "s1")) Scenario.three_sessions).2
  = Return (jsonify []) ∧
  _webio_expire
    (after (_webio_view (Scenario.at_time 100) 3 14400
              (Scenario.get None (Some "s1"))) Scenario.three_sessions)
  = [("s1", 1); ("s2", 5); ("s3", 9)]%Z ∧
  _webio_expire
    (after (_webio_view (Scenario.at_time 100) 3 14400
              (Scenario.get None (Some "s1"))) Scenario.three_sessions)
  ≠ LRUDict.setitem "s1" 100%Z (_webio_expire Scenario.three_sessions).
Proof. split_and!; [vm_compute; reflexivity..|]. vm_compute. discriminate. Qed.

(** C7 as stated fails twice.  An entry point that ends at once gives a
    session closed at its first pull, and the response carries no
    identifier; and the identifier drawn can be one that is registered, the
    new session then taking the place of the old one in the registry. *)
Lemma new_session_counterexample :
  ((_webio_view (Scenario.at_time 10) 0 14400
      (Scenario.get None None) Scenario.empty_world).2
   = Return (mkResponse (Json [close_session_message]) None)) ∧
  (_webio_sessions Scenario.one_session !! "aaaaaaaaaaaaaaaaaaaaaaaa" = Some 0 ∧
   (start_new_session (Scenario.at_time 10) 3 Scenario.one_session).2
   = Return ("aaaaaaaaaaaaaaaaaaaaaaaa"%string, 1) ∧
   _webio_sessions
     (after (start_new_session (Scenario.at_time 10) 3) Scenario.one_session)
     !! "aaaaaaaaaaaaaaaaaaaaaaaa" = Some 1).
Proof. split_and!; vm_compute; reflexivity. Qed.

(** C7, amended, at a first poll. *)
Lemma new_session_started_witness :
  String.length (draw (Scenario.at_time 10) (drawn Scenario.empty_world) 24)
  = 24 ∧
  start_new_session (Scenario.at_time 10) 3 Scenario.empty_world
  = (after (start_new_session (Scenario.at_time 10) 3) Scenario.empty_world,
     Return (draw (Scenario.at_time 10) (drawn Scenario.empty_world) 24,
             next_object Scenario.empty_world)) ∧
  objects (after (start_new_session (Scenario.at_time 10) 3) Scenario.empty_world)
    (next_object Scenario.empty_world)
  = new_session (Scenario.at_time 10) 3 ∧
  _webio_sessions
    (after (start_new_session (Scenario.at_time 10) 3) Scenario.empty_world)
    !! (draw (Scenario.at_time 10) (drawn Scenario.empty_world) 24)
  = Some (next_object Scenario.empty_world) ∧
  last (_webio_expire
          (after (start_new_session (Scenario.at_time 10) 3)
             Scenario.empty_world))
  = Some (draw (Scenario.at_time 10) (drawn Scenario.empty_world) 24,
          reading (Scenario.at_time 10) Scenario.empty_world) ∧
  _webio_view (Scenario.at_time 10) 3 14400 (Scenario.get None None)
    Scenario.empty_world
  = serve (Scenario.at_time 10) 14400 (Scenario.get None None) true
      (draw (Scenario.at_time 10) (drawn Scenario.empty_world) 24)
      (next_object Scenario.empty_world)
      (after (start_new_session (Scenario.at_time 10) 3) Scenario.empty_world) ∧
  ∀ response,
    (_webio_view (Scenario.at_time 10) 3 14400 (Scenario.get None None)
       Scenario.empty_world).2 = Return response →
    response_webio_session_id response
    = if closed (first_pull (Scenario.at_time 10) 3 (Scenario.get None None)
                   Scenario.empty_world).2
      then None
      else Some (draw (Scenario.at_time 10) (drawn Scenario.empty_world) 24).
Proof.
  apply (new_session_started (Scenario.at_time 10) 3 14400
           (Scenario.get None None) Scenario.empty_world); reflexivity.
Defined.

Lemma empty_world_consistent : consistent Scenario.empty_world.
Proof.
  split; simpl.
  - constructor.
  - intros sid. simpl. rewrite lookup_empty, <-not_eq_None_Some.
    split; [by intros ?%elem_of_nil|done].
Qed.

(** C10 at a first poll with an entry point that ends at once. *)
Lemma closed_new_session_gets_no_header_witness :
  (closed (first_pull (Scenario.at_time 10) 0 (Scenario.get None None)
        Scenario.empty_world).2 = true →
   ((draw (Scenario.at_time 10) (drawn Scenario.empty_world) 24)
    ∉ OrderedDict.keys
        (_webio_expire (after (_webio_view (Scenario.at_time 10) 0 14400 (Scenario.get None None)) Scenario.empty_world))) ∧
   _webio_sessions (after (_webio_view (Scenario.at_time 10) 0 14400 (Scenario.get None None)) Scenario.empty_world)
     !! (draw (Scenario.at_time 10) (drawn Scenario.empty_world) 24) = None ∧
   (∀ response,
      ((_webio_view (Scenario.at_time 10) 0 14400 (Scenario.get None None)) Scenario.empty_world).2 = Return response →
      response_webio_session_id response = None) ∧
   ((_webio_view (Scenario.at_time 10) 0 14400 (Scenario.get None None)) Scenario.empty_world).2
   = (if decide ((draw (Scenario.at_time 10) (drawn Scenario.empty_world) 24)
                 ∈ OrderedDict.keys (swept (Scenario.at_time 10) 14400
        (after (start_new_session (Scenario.at_time 10) 0) Scenario.empty_world)))
      then Raise (KeyError (draw (Scenario.at_time 10) (drawn Scenario.empty_world) 24))
      else Return (jsonify (first_pull (Scenario.at_time 10) 0 (Scenario.get None None)
        Scenario.empty_world).1))) ∧
  (∀ response sid,
     ((_webio_view (Scenario.at_time 10) 0 14400 (Scenario.get None None)) Scenario.empty_world).2 = Return response →
     response_webio_session_id response = Some sid →
     sid = (draw (Scenario.at_time 10) (drawn Scenario.empty_world) 24) ∧
     closed (first_pull (Scenario.at_time 10) 0 (Scenario.get None None)
        Scenario.empty_world).2 = false) ∧
  (closed (first_pull (Scenario.at_time 10) 0 (Scenario.get None None)
        Scenario.empty_world).2 = false →
   ((_webio_view (Scenario.at_time 10) 0 14400 (Scenario.get None None)) Scenario.empty_world).2
   = Return (mkResponse (Json (first_pull (Scenario.at_time 10) 0 (Scenario.get None None)
        Scenario.empty_world).1)
               (Some (draw (Scenario.at_time 10) (drawn Scenario.empty_world) 24))) ∧
   _webio_sessions (after (_webio_view (Scenario.at_time 10) 0 14400 (Scenario.get None None)) Scenario.empty_world)
     !! (draw (Scenario.at_time 10) (drawn Scenario.empty_world) 24)
   = (if decide ((draw (Scenario.at_time 10) (drawn Scenario.empty_world) 24)
                 ∈ OrderedDict.keys (swept (Scenario.at_time 10) 14400
        (after (start_new_session (Scenario.at_time 10) 0) Scenario.empty_world)))
      then None else Some (next_object Scenario.empty_world)) ∧
   _webio_expire (after (_webio_view (Scenario.at_time 10) 0 14400 (Scenario.get None None)) Scenario.empty_world)
   = drop (length (swept (Scenario.at_time 10) 14400
        (after (start_new_session (Scenario.at_time 10) 0) Scenario.empty_world)))
       (_webio_expire (after (start_new_session (Scenario.at_time 10) 0) Scenario.empty_world))).
Proof.
  apply (closed_new_session_gets_no_header (Scenario.at_time 10) 0 14400
           (Scenario.get None None) Scenario.empty_world).
  - exact empty_world_consistent.
  - reflexivity.
  - reflexivity.
Defined.

(** The identifier of a session that did not survive the request.  A
    first poll, with a clock that advances by one second at each reading
    and starts at 200, an idle budget of one second and a sweep that is
    due: the session is created at 200, the sweep reads 202 and evicts it,
    the session does not report closed, and the response carries its
    identifier although neither dictionary holds it any more. *)
Lemma header_for_evicted_session_counterexample :
  (_webio_view (Scenario.ticking 200) 3 1 (Scenario.get None None)
     Scenario.empty_world).2
  = Return (mkResponse (Json []) (Some "aaaaaaaaaaaaaaaaaaaaaaaa")) ∧
  _webio_sessions
    (after (_webio_view (Scenario.ticking 200) 3 1 (Scenario.get None None))
       Scenario.empty_world) !! "aaaaaaaaaaaaaaaaaaaaaaaa" = None ∧
  _webio_expire
    (after (_webio_view (Scenario.ticking 200) 3 1 (Scenario.get None None))
       Scenario.empty_world) = [].
Proof. split_and!; vm_compute; reflexivity. Qed.

(** C9 at [three_sessions], with a clock that advances by one second at
    each reading. *)
Lemma timestamps_stay_ordered_witness :
  _webio_expire
    (after (start_new_session (Scenario.ticking 10) 3) Scenario.three_sessions)
  = OrderedDict.remove
      (draw (Scenario.ticking 10) (drawn Scenario.three_sessions) 24)
      (_webio_expire Scenario.three_sessions)
    ++ [(draw (Scenario.ticking 10) (drawn Scenario.three_sessions) 24,
         reading (Scenario.ticking 10) Scenario.three_sessions)] ∧
  time_ordered
    (_webio_expire
       (after (start_new_session (Scenario.ticking 10) 3)
          Scenario.three_sessions)) ∧
  (∃ gone,
     _webio_expire Scenario.three_sessions
     = gone ++ _webio_expire
                 (after (_remove_expired_sessions (Scenario.ticking 10) 4)
                    Scenario.three_sessions) ∧
     gone `prefix_of` expired_prefix (Scenario.ticking 10) 4
                        (ticks Scenario.three_sessions)
                        (_webio_expire Scenario.three_sessions) ∧
     ((_remove_expired_sessions (Scenario.ticking 10) 4
         Scenario.three_sessions).2 = Return tt →
      gone = expired_prefix (Scenario.ticking 10) 4
               (ticks Scenario.three_sessions)
               (_webio_expire Scenario.three_sessions) ∧
      match _webio_expire
              (after (_remove_expired_sessions (Scenario.ticking 10) 4)
                 Scenario.three_sessions) with
      | [] => True
      | (_, ts) :: _ =>
          (clock (Scenario.ticking 10)
             (ticks Scenario.three_sessions + length gone) - ts < 4)%Z
      end)) ∧
  time_ordered
    (_webio_expire
       (after (_remove_expired_sessions (Scenario.ticking 10) 4)
          Scenario.three_sessions)) ∧
  time_ordered
    (_webio_expire (after (_remove_webio_session "s2") Scenario.three_sessions)) ∧
  time_ordered
    (_webio_expire
       (after (_webio_view (Scenario.ticking 10) 3 4
                 (Scenario.post None "click")) Scenario.three_sessions)) ∧
  in_the_past (Scenario.ticking 10)
    (after (_webio_view (Scenario.ticking 10) 3 4
              (Scenario.post None "click")) Scenario.three_sessions).
Proof.
  apply (timestamps_stay_ordered (Scenario.ticking 10) 3 4
           (Scenario.post None "click") "s2" Scenario.three_sessions).
  - intros n m Hnm. simpl. unfold Scenario.advancing. lia.
  - exact three_sessions_wf.
  - unfold time_ordered. simpl. repeat constructor; lia.
  - unfold in_the_past. simpl. repeat constructor; unfold Scenario.advancing; lia.
Defined.

(** The order lost when the clock is set back.  Two first polls from the
    empty state, the clock reading 100 at the first and 50 afterwards: the
    tracker is ordered before the first request and after it, and after
    the second the record of the second session, with 50, stands behind
    that of the first, with 100. *)
Lemma clock_set_back_counterexample :
  time_ordered (_webio_expire Scenario.empty_world) ∧
  _webio_expire
    (run Scenario.set_back 3 14400 [Scenario.get None None]
       Scenario.empty_world)
  = [("aaaaaaaaaaaaaaaaaaaaaaaa", 100%Z)] ∧
  time_ordered
    (_webio_expire
       (run Scenario.set_back 3 14400 [Scenario.get None None]
          Scenario.empty_world)) ∧
  _webio_expire
    (run Scenario.set_back 3 14400
       [Scenario.get None None; Scenario.get None None] Scenario.empty_world)
  = [("aaaaaaaaaaaaaaaaaaaaaaaa", 100%Z); ("bbbbbbbbbbbbbbbbbbbbbbbb", 50%Z)] ∧
  ¬ time_ordered
      (_webio_expire
         (run Scenario.set_back 3 14400
            [Scenario.get None None; Scenario.get None None]
            Scenario.empty_world)).
Proof.
  assert (_webio_expire
            (run Scenario.set_back 3 14400 [Scenario.get None None]
               Scenario.empty_world)
          = [("aaaaaaaaaaaaaaaaaaaaaaaa", 100%Z)]) as H1
    by (vm_compute; reflexivity).
  assert (_webio_expire
            (run Scenario.set_back 3 14400
               [Scenario.get None None; Scenario.get None None]
               Scenario.empty_world)
          = [("aaaaaaaaaaaaaaaaaaaaaaaa", 100%Z);
             ("bbbbbbbbbbbbbbbbbbbbbbbb", 50%Z)]) as H2
    by (vm_compute; reflexivity).
  rewrite H1, H2. unfold time_ordered. simpl. split_and!; [|done| |done|].
  - constructor.
  - repeat constructor.
  - intros Hs. apply StronglySorted_inv in Hs as [_ Hall].
    apply Forall_inv in Hall. lia.
Qed.

(** ** Runs of the further properties *)

Lemma three_sessions_consistent : consistent Scenario.three_sessions.
Proof. split; [exact three_sessions_wf | exact three_sessions_paired]. Qed.

Lemma three_sessions_store_ok : store_ok Scenario.three_sessions.
Proof.
  split.
  - intros sid obj. simpl. rewrite !lookup_insert_Some, lookup_empty.
    intros [[_ <-]|[_ [[_ <-]|[_ [[_ <-]|[_ ?]]]]]]; [lia..|done].
  - intros sid1 sid2 obj. simpl. rewrite !lookup_insert_Some, !lookup_empty.
    naive_solver.
Qed.

Lemma dangling_wf : OrderedDict.wf (_webio_expire Scenario.dangling).
Proof.
  unfold OrderedDict.wf. simpl. apply (bool_decide_unpack _).
  vm_compute. exact I.
Qed.

Lemma first_poll_resolves coro_func now :
  resolves (Scenario.at_time now) coro_func (Scenario.get None None)
    Scenario.empty_world true "aaaaaaaaaaaaaaaaaaaaaaaa" 0
    (after (start_new_session (Scenario.at_time now) coro_func)
       Scenario.empty_world).
Proof. split; [reflexivity|]. left. by split_and!. Qed.

(** X2 at the removal of ["s2"] from [three_sessions]. *)
Lemma removal_removes_exactly_witness :
  (∀ sid',
     _webio_sessions (after (_remove_webio_session "s2") Scenario.three_sessions)
       !! sid'
     = if decide (sid' = "s2"%string) then None
       else _webio_sessions Scenario.three_sessions !! sid') ∧
  (∀ item,
     item ∈ _webio_expire
              (after (_remove_webio_session "s2") Scenario.three_sessions)
     ↔ item ∈ _webio_expire Scenario.three_sessions ∧ item.1 ≠ "s2"%string) ∧
  _webio_expire (after (_remove_webio_session "s2") Scenario.three_sessions)
  `sublist_of` _webio_expire Scenario.three_sessions.
Proof.
  apply (removal_removes_exactly "s2" Scenario.three_sessions).
  vm_compute. reflexivity.
Defined.

(** X3 at [three_sessions], swept at time 3 with budget 4. *)
Lemma sweep_keeps_fresh_front_witness :
  (_remove_expired_sessions (Scenario.at_time 3) 4 Scenario.three_sessions).2
  = Return tt ∧
  _webio_expire
    (after (_remove_expired_sessions (Scenario.at_time 3) 4)
       Scenario.three_sessions)
  = _webio_expire Scenario.three_sessions ∧
  _webio_sessions
    (after (_remove_expired_sessions (Scenario.at_time 3) 4)
       Scenario.three_sessions)
  = _webio_sessions Scenario.three_sessions ∧
  ticks (after (_remove_expired_sessions (Scenario.at_time 3) 4)
           Scenario.three_sessions)
  = (ticks Scenario.three_sessions
     + if _webio_expire Scenario.three_sessions is [] then 0 else 1)%nat.
Proof.
  apply (sweep_keeps_fresh_front (Scenario.at_time 3) 4 Scenario.three_sessions).
  - exact three_sessions_wf.
  - simpl. unfold reading. simpl. unfold Scenario.frozen. lia.
Defined.

(** X4 at [dangling], swept at time 10 with budget 4. *)
Lemma sweep_raises_on_dangling_record_witness :
  ∃ sid,
    KeyError "zz" = KeyError sid ∧
    sid ∈ OrderedDict.keys (_webio_expire Scenario.dangling) ∧
    _webio_sessions Scenario.dangling !! sid = None ∧
    (sid ∉ OrderedDict.keys
             (_webio_expire
                (after (_remove_expired_sessions (Scenario.at_time 10) 4)
                   Scenario.dangling))).
Proof.
  apply (sweep_raises_on_dangling_record (Scenario.at_time 10) 4
           Scenario.dangling (KeyError "zz")).
  - exact dangling_wf.
  - vm_compute. reflexivity.
Defined.

(** X7 at a POST that starts a session, with an advancing clock. *)
Lemma last_sweep_advances_by_interval_witness :
  _last_check_session_expire_ts
    (after (_webio_view (Scenario.ticking 200) 3 4 (Scenario.post None "click"))
       Scenario.three_sessions)
  = _last_check_session_expire_ts Scenario.three_sessions
  ∨ (_last_check_session_expire_ts
       (after (_webio_view (Scenario.ticking 200) 3%nat 4
                 (Scenario.post None "click")) Scenario.three_sessions)
     > _last_check_session_expire_ts Scenario.three_sessions
       + REMOVE_EXPIRED_SESSIONS_INTERVAL)%Z.
Proof.
  apply (last_sweep_advances_by_interval (Scenario.ticking 200) 3 4
           (Scenario.post None "click") Scenario.three_sessions).
  intros n m Hnm. simpl. unfold Scenario.advancing. lia.
Defined.

(** X8 at a first poll. *)
Lemma identifier_only_sent_to_new_session_witness :
  truthy (args_test (Scenario.get None None)) = false ∧
  truthy (header_webio_session_id (Scenario.get None None)) = false ∧
  "aaaaaaaaaaaaaaaaaaaaaaaa"%string
  = draw (Scenario.at_time 10) (drawn Scenario.empty_world) 24.
Proof.
  apply (identifier_only_sent_to_new_session (Scenario.at_time 10) 3 14400
           (Scenario.get None None) Scenario.empty_world
           (mkResponse (Json []) (Some "aaaaaaaaaaaaaaaaaaaaaaaa"%string))).
  - vm_compute. reflexivity.
  - reflexivity.
Defined.

(** X9 at a POST for the registered session ["s2"]. *)
Lemma request_touches_own_session_witness :
  (∀ o, o ≠ 1 →
        objects (after (_webio_view (Scenario.at_time 10) 3 14400
                          (Scenario.post (Some "s2") "click"))
                   Scenario.three_sessions) o
        = objects Scenario.three_sessions o) ∧
  next_object (after (_webio_view (Scenario.at_time 10) 3 14400
                        (Scenario.post (Some "s2") "click"))
                 Scenario.three_sessions)
  = if false then S (next_object Scenario.three_sessions)
    else next_object Scenario.three_sessions.
Proof.
  apply (request_touches_own_session (Scenario.at_time 10) 3 14400
           (Scenario.post (Some "s2") "click") Scenario.three_sessions
           false "s2" 1 Scenario.three_sessions).
  split; [reflexivity|]. right.
  split_and!; [reflexivity|discriminate|vm_compute; reflexivity|
               reflexivity|reflexivity].
Defined.

(** X10 at a POST that starts a session. *)
Lemma store_stays_ok_witness :
  store_ok (after (_webio_view (Scenario.at_time 10) 3 14400
                     (Scenario.post None "click")) Scenario.three_sessions).
Proof.
  apply (store_stays_ok (Scenario.at_time 10) 3 14400
           (Scenario.post None "click") Scenario.three_sessions).
  exact three_sessions_store_ok.
Defined.

(** X11 at a first poll whose entry point ends at once, followed by a
    poll with the identifier that was drawn. *)
Lemma closed_session_is_gone_witness :
  _webio_view (Scenario.at_time 10) 0 14400 (Scenario.get None (Some "aaaaaaaaaaaaaaaaaaaaaaaa"))
    (after (_webio_view (Scenario.at_time 10) 0 14400 (Scenario.get None None))
       Scenario.empty_world)
  = (after (_webio_view (Scenario.at_time 10) 0 14400 (Scenario.get None None))
       Scenario.empty_world,
     Return (jsonify [close_session_message])).
Proof.
  apply (closed_session_is_gone (Scenario.at_time 10) 0 14400
           (Scenario.get None None) (Scenario.get None (Some "aaaaaaaaaaaaaaaaaaaaaaaa"))
           Scenario.empty_world true "aaaaaaaaaaaaaaaaaaaaaaaa" 0
           (after (start_new_session (Scenario.at_time 10) 0)
              Scenario.empty_world)).
  - exact empty_world_consistent.
  - apply first_poll_resolves.
  - vm_compute. reflexivity.
  - reflexivity.
  - reflexivity.
Defined.

(** X12 at a poll of the registered session ["s1"]. *)
Lemma request_writes_only_its_own_record_witness :
  _webio_expire
    (after (_webio_view (Scenario.at_time 10) 3 14400
              (Scenario.get None (Some "s1"))) Scenario.three_sessions)
  `sublist_of`
  (if negb (truthy (args_test (Scenario.get None (Some "s1"))))
      && negb (truthy (header_webio_session_id (Scenario.get None (Some "s1"))))
   then LRUDict.setitem
          (draw (Scenario.at_time 10) (drawn Scenario.three_sessions) 24)
          (reading (Scenario.at_time 10) Scenario.three_sessions)
          (_webio_expire Scenario.three_sessions)
   else _webio_expire Scenario.three_sessions).
Proof.
  apply (request_writes_only_its_own_record (Scenario.at_time 10) 3 14400
           (Scenario.get None (Some "s1")) Scenario.three_sessions).
  exact three_sessions_wf.
Defined.

(** X13 at [three_sessions], swept at time 10 with budget 4, then polled
    by the session ["s1"]. *)
Lemma evicted_session_is_gone_witness :
  _webio_view (Scenario.at_time 10) 3 14400 (Scenario.get None (Some "s1"))
    (after (_remove_expired_sessions (Scenario.at_time 10) 4)
       Scenario.three_sessions)
  = (after (_remove_expired_sessions (Scenario.at_time 10) 4)
       Scenario.three_sessions,
     Return (jsonify [close_session_message])).
Proof.
  apply (evicted_session_is_gone (Scenario.at_time 10) 3 4 14400
           (Scenario.get None (Some "s1")) Scenario.three_sessions "s1").
  - exact three_sessions_consistent.
  - apply (bool_decide_unpack _). vm_compute. exact I.
  - reflexivity.
  - reflexivity.
  - discriminate.
Defined.

(** X14 at a first poll, made when the sweep is due, with an idle budget
    of 0 and an entry point that ends at once. *)
Lemma keyerror_only_after_eviction_witness :
  ∃ set_header sid obj w1,
    resolves (Scenario.at_time 200) 0 (Scenario.get None None)
      Scenario.empty_world set_header sid obj w1 ∧
    "aaaaaaaaaaaaaaaaaaaaaaaa"%string = sid ∧
    sweep_due (Scenario.at_time 200) w1 ∧
    closed (get_task_messages
              (objects (pushed (Scenario.get None None) obj w1) obj)).2 = true ∧
    _webio_sessions
      (after (_webio_view (Scenario.at_time 200) 0 0 (Scenario.get None None))
         Scenario.empty_world) !! sid = None.
Proof.
  apply (keyerror_only_after_eviction (Scenario.at_time 200) 0 0
           (Scenario.get None None) Scenario.empty_world
           "aaaaaaaaaaaaaaaaaaaaaaaa").
  - exact empty_world_consistent.
  - vm_compute. reflexivity.
Defined.

